(** * Dynamic sampling context and otel continuation of sentry-go

    A shallow embedding of [dynamic_sampling_context.go] (package [sentry])
    and of [otel/mittleware.go] (package [sentryotel]), with the properties
    the specification states about them.

    Go values are modelled as follows: a Go [string] is a [string] of bytes,
    a [[]byte] is a [list Byte.byte], a [map[string]string] is a
    [gmap string string] (the nil map and the empty map read alike and are
    both [∅]), a nilable pointer is an [option], a [float64] is an IEEE-754
    binary64 value of [spec_float], and a Go [(T, error)] result is a pair
    whose second component is an [option error]. *)

From Stdlib Require Import ZArith Ascii String List Strings.Byte.
From Stdlib Require Import SpecFloat.
From stdpp Require Import gmap strings list fin_maps.

Local Open Scope stdpp_scope.

(** Every character of [s] satisfies [p]. *)
Fixpoint all_chars (p : ascii → bool) (s : string) : bool :=
  match s with
  | EmptyString => true
  | String c s => p c && all_chars p s
  end.

(** ** Go's [strings] package: the two functions the code calls *)

Module strings.

(** [strings.HasPrefix(s, prefix)]. *)
Fixpoint HasPrefix (s prefix : string) {struct prefix} : bool :=
  match prefix, s with
  | EmptyString, _ => true
  | String p prefix', String c s' => Ascii.eqb c p && HasPrefix s' prefix'
  | String _ _, EmptyString => false
  end.

(** [s[len(prefix):]], only called below when [prefix] is a prefix of [s]. *)
Fixpoint drop_len (s prefix : string) {struct prefix} : string :=
  match prefix, s with
  | String _ prefix', String _ s' => drop_len s' prefix'
  | _, _ => s
  end.

(** [strings.TrimPrefix(s, prefix)]: [s] without the leading [prefix], and
    [s] itself when it does not start with [prefix]. *)
Definition TrimPrefix (s prefix : string) : string :=
  if HasPrefix s prefix then drop_len s prefix else s.

End strings.

(** ** Go's [error] values met in this code *)

Inductive error : Type :=
  | ParseError
  | EncodeError.

Definition result (A : Type) : Type := (A + error)%type.
Definition Ok {A} (a : A) : result A := inl a.
Definition Err {A} (e : error) : result A := inr e.

(** ** The interface of package [internal/otel/baggage] used by the code

    The dynamic sampling context calls the package through these
    operations only, and most of its properties hold whatever the
    operations do. *)

Class BaggageAPI := {
  Baggage : Type;
  Member : Type;
  (** [baggage.Parse] *)
  Parse : string → result Baggage;
  (** [Baggage.Members] *)
  Members : Baggage → list Member;
  (** [Member.Key], [Member.Value] *)
  Key : Member → string;
  Value : Member → string;
  (** [baggage.NewMember] *)
  NewMember : string → string → result Member;
  (** [baggage.New] *)
  New : list Member → result Baggage;
  (** [Baggage.String] *)
  Baggage_String : Baggage → string;
}.

(** ** Package [sentry]: the dynamic sampling context *)

Definition sentryPrefix : string := "sentry-".

Record DynamicSamplingContext := {
  Entries : gmap string string;
  Frozen : bool;
}.

(** The zero value [DynamicSamplingContext{}]. *)
Definition DynamicSamplingContext_zero : DynamicSamplingContext :=
  {| Entries := ∅; Frozen := false |}.

Section FromHeader.
Context `{BaggageAPI}.

(** One iteration of the loop over [bag.Members()]. *)
Definition store_member (entries : gmap string string) (member : Member)
  : gmap string string :=
  let k := Key member in
  let v := Value member in
  if strings.HasPrefix k sentryPrefix
  then <[strings.TrimPrefix k sentryPrefix := v]> entries
  else entries.

Definition DynamicSamplingContextFromHeader (header : list Byte.byte)
  : DynamicSamplingContext * option error :=
  match Parse (string_of_list_byte header) with
  | inr err => (DynamicSamplingContext_zero, Some err)
  | inl bag =>
      let entries := fold_left store_member (Members bag) ∅ in
      ({| Entries := entries;
          Frozen := bool_decide (0 < size entries) |}, None)
  end.
End FromHeader.

(** ** Go's [strconv] and [encoding/hex]: the formatting the code calls *)

Module strconv.

(** [strconv.FormatBool]. *)
Definition FormatBool (b : bool) : string := if b then "true" else "false".

Definition digit (d : Z) : ascii := ascii_of_N (48 + Z.to_N d).

(** The decimal digits of a natural number [n], most significant first,
    in front of [acc]. *)
Fixpoint digits_go (fuel : nat) (n : Z) (acc : string) : string :=
  match fuel with
  | O => acc
  | S fuel =>
      let acc := String (digit (n mod 10)) acc in
      if (n / 10 =? 0)%Z then acc else digits_go fuel (n / 10) acc
  end.

Definition digits (n : Z) : string :=
  digits_go (S (Z.to_nat (Z.log2 n))) n "".

Fixpoint zeros (n : nat) : string :=
  match n with O => "" | S n => String "0" (zeros n) end.

Fixpoint take (n : nat) (s : string) : string :=
  match n, s with
  | S n, String c s => String c (take n s)
  | _, _ => ""
  end.

Fixpoint drop (n : nat) (s : string) : string :=
  match n, s with
  | S n, String _ s => drop n s
  | _, _ => s
  end.

(** [%f] layout of the decimal number [d * 10^k] ([0 < d]), with as many
    fraction digits as [k] asks for and no exponent. *)
Definition layout_f (d k : Z) : string :=
  let ds := digits d in
  if (0 <=? k)%Z then ds +:+ zeros (Z.to_nat k)
  else
    let n := Z.to_nat (- k) in
    let len := String.length ds in
    if (n <? len)%nat
    then take (len - n) ds +:+ "." +:+ drop (len - n) ds
    else "0." +:+ zeros (n - len) +:+ ds.

(** The canonical binary64 mantissa and exponent of [m * 2^e]: the mantissa
    is brought up to 53 bits as far as the least exponent, -1074, allows. *)
Definition canonical64 (m : positive) (e : Z) : Z * Z :=
  let sh := Z.max 0 (Z.min (53 - Z.log2 (Z.pos m) - 1) (e + 1074)) in
  (Z.pos m * 2 ^ sh, e - sh)%Z.

(** Decimals [d * 10^k] are compared with binary numbers [y * 2^e2]
    exactly, on integers: [d * 10^k <= y * 2^e2] if and only if
    [d * scale_p e2 k <= y * scale_r e2 k]. *)
Definition scale_p (e2 k : Z) : Z := (10 ^ Z.max 0 k * 2 ^ Z.max 0 (- e2))%Z.
Definition scale_r (e2 k : Z) : Z := (2 ^ Z.max 0 e2 * 10 ^ Z.max 0 (- k))%Z.

(** The rounding interval of a float runs from [lo * 2^e2] to [hi * 2^e2]
    and is closed when the float's mantissa is even ([incl]): the decimals
    within it are those that read back as the float. *)
Definition inside (lo hi : Z) (incl : bool) (e2 k d : Z) : bool :=
  let p := scale_p e2 k in
  let r := scale_r e2 k in
  if incl then (lo * r <=? d * p)%Z && (d * p <=? hi * r)%Z
  else (lo * r <? d * p)%Z && (d * p <? hi * r)%Z.

(** The multiple of [10^k] to write for the float [x4 * 2^e2], if one reads
    back as the float: of the two multiples around the float, the nearer one
    that lies within the interval (the even one on a tie); the multiple 0 is
    not written. *)
Definition candidate (x4 lo hi : Z) (incl : bool) (e2 k : Z) : option Z :=
  let p := scale_p e2 k in
  let r := scale_r e2 k in
  let dl := (x4 * r / p)%Z in
  let du := (if x4 * r mod p =? 0 then dl else dl + 1)%Z in
  let okdown := (0 <? dl)%Z && inside lo hi incl e2 k dl in
  let okup := inside lo hi incl e2 k du in
  let nearest :=
    match (x4 * r - dl * p ?= du * p - x4 * r)%Z with
    | Lt => dl
    | Gt => du
    | Eq => if Z.even dl then dl else du
    end in
  if okdown && okup then Some nearest
  else if okdown then Some dl
  else if okup then Some du
  else None.

(** The first power of ten, from [10^k] downwards, with a candidate. *)
Fixpoint shortest_go (fuel : nat) (x4 lo hi : Z) (incl : bool) (e2 k : Z)
  : option (Z * Z) :=
  match fuel with
  | O => None
  | S fuel =>
      match candidate x4 lo hi incl e2 k with
      | Some d => Some (d, k)
      | None => shortest_go fuel x4 lo hi incl e2 (k - 1)%Z
      end
  end.

(** The lower end of the rounding interval of the canonical float
    [m * 2^e], in units of [2^(e-2)]: half a step below [4 * m], and a
    quarter of a step when the float below is in the binade underneath. *)
Definition lower4 (m e : Z) : Z :=
  (if (m =? 2 ^ 52)%Z && (-1074 <? e)%Z then 4 * m - 1 else 4 * m - 2)%Z.

(** The power of ten the search starts from: [10^k0] is above the
    interval. *)
Definition start_k (m e : Z) : Z := (Z.max 0 (Z.log2 m + 1 + e) + 1)%Z.

(** The shortest decimal [d * 10^k] that reads back as the float
    [m * 2^e]. *)
Definition shortest64 (m : positive) (e : Z) : option (Z * Z) :=
  let '(m, e) := canonical64 m e in
  let k0 := start_k m e in
  shortest_go (Z.to_nat (k0 + Z.max 0 (- e) + 1)) (4 * m) (lower4 m e)
    (4 * m + 2) (Z.even m) (e - 2) k0.




(** [strconv.FormatFloat(f, 'f', -1, 64)]: the shortest decimal that reads
    back as [f], laid out without exponent. *)
Definition FormatFloat_f_shortest_64 (f : spec_float) : string :=
  match f with
  | S754_nan => "NaN"
  | S754_infinity false => "+Inf"
  | S754_infinity true => "-Inf"
  | S754_zero false => "0"
  | S754_zero true => "-0"
  | S754_finite s m e =>
      match shortest64 m e with
      | Some (d, k) => (if s then "-" else "") +:+ layout_f d k
      | None => ""
      end
  end.

End strconv.

Module hex.

Definition hextable : string := "0123456789abcdef".

Definition hexdigit (n : N) : ascii :=
  match String.get (N.to_nat n) hextable with
  | Some c => c
  | None => "0"%char
  end.

(** [hex.EncodeToString]. *)
Fixpoint EncodeToString (src : list Byte.byte) : string :=
  match src with
  | [] => ""
  | b :: src =>
      String (hexdigit (Byte.to_N b / 16))
        (String (hexdigit (Byte.to_N b mod 16)) (EncodeToString src))
  end.

End hex.

(** ** Package [sentry]: the collaborators of the constructors

    Only the fields the two constructors read are kept. *)

Definition float64 : Type := spec_float.

(** The constant [0] of type [float64]. *)
Definition float64_zero : float64 := S754_zero false.

(** Go's [x != 0] on [float64]: IEEE comparison, so that [-0] equals [0]
    and a NaN differs from everything. *)
Definition float64_neq0 (x : float64) : bool := negb (SFeqb x float64_zero).

(** [type TraceID [16]byte], printed in hexadecimal by [TraceID.String]. *)
Definition TraceID : Type := list Byte.byte.
Definition TraceID_String (id : TraceID) : string := hex.EncodeToString id.

(** [type Sampled int8] with its three constants; [Sampled.Bool] is true for
    [SampledTrue] only. *)
Inductive Sampled : Type :=
  | SampledFalse
  | SampledUndefined
  | SampledTrue.

Definition Sampled_Bool (s : Sampled) : bool :=
  match s with SampledTrue => true | _ => false end.

(** [type TransactionSource string]. *)
Definition TransactionSource : Type := string.

Record Dsn := { publicKey : string }.

Record ClientOptions := {
  Release : string;
  Environment : string;
  TracesSampleRate : float64;
}.

Record Client := {
  dsn : option Dsn;
  options : ClientOptions;
}.

Record PropagationContext := { PropagationContext_TraceID : TraceID }.

Record Scope := { propagationContext : PropagationContext }.

(** What [hub.Client()] and [hub.Scope()] return: either may be nil. *)
Record Hub := {
  Hub_Client : option Client;
  Hub_Scope : option Scope;
}.

(** The span's [context.Context], as far as [hubFromContext] looks into
    it: the value stored under [HubContextKey], if any. *)
Record Context := { HubContextKey : option Hub }.

Record Span := {
  Span_TraceID : TraceID;
  Name : string;
  Source : TransactionSource;
  Sampled_ : Sampled;
  sampleRate : float64;
  (** the answer of [span.IsTransaction()] *)
  isTransaction : bool;
  (** the answer of [span.Context()] *)
  ctx : Context;
}.

(** [hubFromContext]: the hub stored on the context, and the process-wide
    current hub when there is none. *)
Definition hubFromContext (currentHub : Hub) (c : Context) : Hub :=
  match HubContextKey c with
  | Some hub => hub
  | None => currentHub
  end.

Section Constructors.
(** The constant [SourceURL] of type [TransactionSource], declared
    elsewhere in the package. *)
Variable SourceURL : TransactionSource.
(** The process-wide hub [hubFromContext] falls back to. *)
Variable currentHub : Hub.

(** The statements shared by both constructors: [public_key], [release]
    and [environment] from the client. *)
Definition client_entries (client : Client) (entries : gmap string string)
  : gmap string string :=
  let entries :=
    match dsn client with
    | Some dsn =>
        let publicKey := publicKey dsn in
        if decide (publicKey ≠ "") then <["public_key" := publicKey]> entries
        else entries
    | None => entries
    end in
  let entries :=
    let release := Release (options client) in
    if decide (release ≠ "") then <["release" := release]> entries
    else entries in
  let entries :=
    let environment := Environment (options client) in
    if decide (environment ≠ "")
    then <["environment" := environment]> entries
    else entries in
  entries.

Definition DynamicSamplingContextFromTransaction (span : Span)
  : DynamicSamplingContext :=
  let entries : gmap string string := ∅ in
  let hub := hubFromContext currentHub (ctx span) in
  let scope := Hub_Scope hub in
  let client := Hub_Client hub in
  match client, scope with
  | Some client, Some scope =>
      let entries :=
        let traceID := TraceID_String (Span_TraceID span) in
        if decide (traceID ≠ "") then <["trace_id" := traceID]> entries
        else entries in
      let entries :=
        let sampleRate := sampleRate span in
        if float64_neq0 sampleRate
        then <["sample_rate" :=
                 strconv.FormatFloat_f_shortest_64 sampleRate]> entries
        else entries in
      let entries := client_entries client entries in
      let entries :=
        if decide (Source span ≠ "" ∧ Source span ≠ SourceURL)
        then if isTransaction span
             then <["transaction" := Name span]> entries
             else entries
        else entries in
      let entries :=
        <["sampled" := strconv.FormatBool (Sampled_Bool (Sampled_ span))]>
          entries in
      {| Entries := entries; Frozen := true |}
  | _, _ => {| Entries := ∅; Frozen := false |}
  end.

Definition DynamicSamplingContextFromScope
    (scope : option Scope) (client : option Client)
  : DynamicSamplingContext :=
  let entries : gmap string string := ∅ in
  match client, scope with
  | Some client, Some scope =>
      let propagationContext := propagationContext scope in
      let entries :=
        let traceID :=
          TraceID_String (PropagationContext_TraceID propagationContext) in
        if decide (traceID ≠ "") then <["trace_id" := traceID]> entries
        else entries in
      let entries :=
        let sampleRate := TracesSampleRate (options client) in
        if float64_neq0 sampleRate
        then <["sample_rate" :=
                 strconv.FormatFloat_f_shortest_64 sampleRate]> entries
        else entries in
      let entries := client_entries client entries in
      {| Entries := entries; Frozen := true |}
  | _, _ => {| Entries := entries; Frozen := false |}
  end.
End Constructors.

Definition HasEntries (d : DynamicSamplingContext) : bool :=
  bool_decide (0 < size (Entries d)).

Definition IsFrozen (d : DynamicSamplingContext) : bool := Frozen d.

(** ** [DynamicSamplingContext.String]

    Go visits the entries of a map in an order it does not specify. The
    loop is therefore written over the sequence [visited] of entries in the
    order of one run; [range_of] says which sequences a run may take. *)

Definition range_of (m : gmap string string) (visited : list (string * string))
  : Prop :=
  visited ≡ₚ map_to_list m.

Section Serialize.
Context `{BaggageAPI}.

(** One iteration of [for k, entry := range d.Entries]. *)
Definition append_member (members : list Member) (e : string * string)
  : list Member :=
  let '(k, entry) := e in
  match NewMember (sentryPrefix +:+ k) entry with
  | inr _ => members
  | inl member => members ++ [member]
  end.

Definition String_visiting (visited : list (string * string)) : string :=
  let members := fold_left append_member visited [] in
  if (0 <? length members)%nat then
    match New members with
    | inr _ => ""
    | inl baggage => Baggage_String baggage
    end
  else "".

(** The run that visits the entries in the order of [map_to_list]. *)
Definition DynamicSamplingContext_String (d : DynamicSamplingContext)
  : string :=
  String_visiting (map_to_list (Entries d)).

(** The specification's words for the same: the member of an entry, when
    [newMember] builds one for its prefixed key, and the members of the
    entries that survive, in the order visited. *)
Definition encodable_member (e : string * string) : option Member :=
  match NewMember (sentryPrefix +:+ e.1) e.2 with
  | inl member => Some member
  | inr _ => None
  end.

Definition surviving_members (visited : list (string * string))
  : list Member :=
  omap encodable_member visited.

Definition serialize_spec (visited : list (string * string)) : string :=
  match surviving_members visited with
  | [] => ""
  | members =>
      match New members with
      | inl document => Baggage_String document
      | inr _ => ""
      end
  end.

(** What the dynamic sampling context needs of a codec for a header it
    wrote to read back: a member built from a key and a value has that key
    and that value, and a document of such members, once serialized,
    parses into members with the same keys and values in the same
    order. *)
Definition key_value (m : Member) : string * string := (Key m, Value m).

(** An entry under its key on the wire. *)
Definition prefixed (e : string * string) : string * string :=
  (sentryPrefix +:+ e.1, e.2).

(** The header written on a run that visits [visited] reads back as the
    entries of [d], frozen. *)
Definition reads_back_as (d : DynamicSamplingContext)
    (visited : list (string * string)) : Prop :=
  DynamicSamplingContextFromHeader
    (list_byte_of_string (String_visiting visited))
    = ({| Entries := Entries d; Frozen := true |}, None).

Definition codec_reads_back : Prop :=
  (∀ k v m, NewMember k v = inl m → key_value m = (k, v)) ∧
  (∀ members document,
     members ≠ [] →
     Forall (λ m, ∃ k v, NewMember k v = inl m) members →
     New members = inl document →
     ∃ parsed,
       Parse (Baggage_String document) = inl parsed ∧
       key_value <$> Members parsed = key_value <$> members).
End Serialize.

(** ** Package [sentryotel]: the continuation middleware *)

Module sentryotel.

(** [trace.SpanID], an [[8]byte], as a 64-bit number. *)
Definition SpanID : Type := N.

(** An otel [trace.Span], as far as the middleware asks it. *)
Record OtelSpan := {
  IsRecording : bool;
  SpanContext_SpanID : SpanID;
}.

(** The span [trace.SpanFromContext] answers with when the context carries
    none: it never records and its identifier is all zero. *)
Definition noopSpan : OtelSpan :=
  {| IsRecording := false; SpanContext_SpanID := 0%N |}.

Section Middleware.
(** [*sentry.Span], the request's remaining fields, the response writer
    and the rest of the world a handler acts on. *)
Variables (SentrySpan RequestData ResponseWriter World : Type).

(** The request's [context.Context] as an explicit value map: the slot of
    otel's current span and the slot of sentry's current span. *)
Record RequestContext := {
  currentSpanKey : option OtelSpan;
  spanContextKey : option SentrySpan;
}.

Record Request := {
  Request_Context : RequestContext;
  Request_Data : RequestData;
}.

(** [r.WithContext(ctx)]: a copy of the request with its context
    replaced. *)
Definition WithContext (r : Request) (c : RequestContext) : Request :=
  {| Request_Context := c; Request_Data := Request_Data r |}.

(** [trace.SpanFromContext]: the interface value returned is never nil. *)
Definition SpanFromContext (c : RequestContext) : option OtelSpan :=
  match currentSpanKey c with
  | Some span => Some span
  | None => Some noopSpan
  end.

(** [sentry.SpanToContext]: the context with sentry's slot set. *)
Definition SpanToContext (c : RequestContext) (span : SentrySpan)
  : RequestContext :=
  {| currentSpanKey := currentSpanKey c; spanContextKey := Some span |}.

(** [sentry.SpanFromContext]: the active sentry span of a context. *)
Definition ActiveSentrySpan (c : RequestContext) : option SentrySpan :=
  spanContextKey c.

(** Modelled from the spec: the registry [sentrySpanMap], whose [Get] is
    [get(externalID) -> localSpan | notFound] on an associative store. It
    is process-wide state, so it is part of the state handlers run in. *)
Record State := {
  sentrySpanMap : gmap SpanID SentrySpan;
  world : World;
}.

Definition SentrySpanMap_Get (σ : State) (id : SpanID)
  : option SentrySpan :=
  sentrySpanMap σ !! id.

(** An [http.Handler]: [ServeHTTP(w, r)] acting on the state. *)
Definition Handler : Type := ResponseWriter → Request → State → State.

Definition ContinueFromOtel (next : Handler) : Handler :=
  fun w r σ =>
    let r :=
      match SpanFromContext (Request_Context r) with
      | Some otelTrace =>
          if IsRecording otelTrace then
            match SentrySpanMap_Get σ (SpanContext_SpanID otelTrace) with
            | Some transaction =>
                WithContext r
                  (SpanToContext (Request_Context r) transaction)
            | None => r
            end
          else r
      | None => r
      end in
    next w r σ.
End Middleware.

Arguments currentSpanKey {SentrySpan} _.
Arguments spanContextKey {SentrySpan} _.
Arguments Request_Context {SentrySpan RequestData} _.
Arguments Request_Data {SentrySpan RequestData} _.
Arguments WithContext {SentrySpan RequestData} _ _.
Arguments SpanFromContext {SentrySpan} _.
Arguments SpanToContext {SentrySpan} _ _.
Arguments ActiveSentrySpan {SentrySpan} _.
Arguments sentrySpanMap {SentrySpan World} _.
Arguments world {SentrySpan World} _.
Arguments SentrySpanMap_Get {SentrySpan World} _ _.
Arguments ContinueFromOtel {SentrySpan RequestData ResponseWriter World} _.

End sentryotel.

(** ** Package [internal/otel/baggage], from the specification

    The operations of the package, written after the specification's
    section on the baggage codec. *)

Module baggage.

(** A member: key, value and the properties text, kept as it was read
    (empty when the member has none). *)
Record Member := {
  Key : string;
  Value : string;
  Properties : string;
}.

(** A document: the members in their order. *)
Definition Baggage : Type := list Member.

Definition Members (b : Baggage) : list Member := b.

Definition is_alnum (c : ascii) : bool :=
  let n := N_of_ascii c in
  ((48 <=? n) && (n <=? 57) || (65 <=? n) && (n <=? 90)
   || (97 <=? n) && (n <=? 122))%N.

(** The characters written as they are; every other one is written as a
    percent sign and two hexadecimal digits. *)
Definition unreserved (c : ascii) : bool :=
  is_alnum c || Ascii.eqb c "-" || Ascii.eqb c "." || Ascii.eqb c "_"
  || Ascii.eqb c "~".

Definition upperhex (n : N) : ascii :=
  match String.get (N.to_nat n) "0123456789ABCDEF" with
  | Some c => c
  | None => "0"%char
  end.

Definition unhex (c : ascii) : option N :=
  let n := N_of_ascii c in
  if ((48 <=? n) && (n <=? 57))%N then Some (n - 48)%N
  else if ((65 <=? n) && (n <=? 70))%N then Some (n - 55)%N
  else if ((97 <=? n) && (n <=? 102))%N then Some (n - 87)%N
  else None.

Fixpoint percent_encode (s : string) : string :=
  match s with
  | EmptyString => ""
  | String c s =>
      if unreserved c then String c (percent_encode s)
      else
        String "%" (String (upperhex (N_of_ascii c / 16))
          (String (upperhex (N_of_ascii c mod 16)) (percent_encode s)))
  end.

Fixpoint percent_decode (s : string) : option string :=
  match s with
  | EmptyString => Some ""
  | String "%" (String h (String l s)) =>
      match unhex h, unhex l, percent_decode s with
      | Some a, Some b, Some t => Some (String (ascii_of_N (16 * a + b)) t)
      | _, _, _ => None
      end
  | String "%" _ => None
  | String c s =>
      match percent_decode s with
      | Some t => Some (String c t)
      | None => None
      end
  end.

(** The characters [percent_encode] writes: the unreserved ones (the
    hexadecimal digits are among them) and the percent sign. *)
Definition wire_char (c : ascii) : bool := unreserved c || Ascii.eqb c "%".

(** The characters that separate members, properties, keys and values. *)
Definition is_delimiter (c : ascii) : bool :=
  Ascii.eqb c "," || Ascii.eqb c ";" || Ascii.eqb c "=" || Ascii.is_space c.

(** The segments of [s] between the occurrences of [sep]. *)
Fixpoint split (sep : ascii) (s : string) : list string :=
  match s with
  | EmptyString => [""]
  | String c s =>
      if Ascii.eqb c sep then "" :: split sep s
      else
        match split sep s with
        | seg :: segs => String c seg :: segs
        | [] => [String c ""]
        end
  end.

(** [s] cut at the first occurrence of [sep]: the text before it and, when
    [sep] occurs, the text after it. *)
Fixpoint cut (sep : ascii) (s : string) : string * option string :=
  match s with
  | EmptyString => ("", None)
  | String c s =>
      if Ascii.eqb c sep then ("", Some s)
      else let '(before, after) := cut sep s in (String c before, after)
  end.

Fixpoint trim_left (s : string) : string :=
  match s with
  | String c s' => if Ascii.is_space c then trim_left s' else s
  | EmptyString => ""
  end.

Fixpoint trim_right (s : string) : string :=
  match s with
  | EmptyString => ""
  | String c s' =>
      match trim_right s' with
      | EmptyString => if Ascii.is_space c then "" else String c ""
      | t => String c t
      end
  end.

Definition trim (s : string) : string := trim_right (trim_left s).

(** One segment of the header: the properties are what follows the first
    semicolon; the rest must hold an equals sign, with a key before it that
    decodes and is not empty and a value after it that decodes. *)
Definition parseMember (segment : string) : result Member :=
  let '(kv, props) := cut ";" (trim segment) in
  let '(k, v) := cut "=" (trim kv) in
  match v with
  | None => Err ParseError
  | Some v =>
      match percent_decode k, percent_decode v with
      | Some key, Some value =>
          if decide (key = "") then Err ParseError
          else Ok {| Key := key; Value := value;
                     Properties := trim (default "" props) |}
      | _, _ => Err ParseError
      end
  end.

Fixpoint parseMembers (segments : list string) : result Baggage :=
  match segments with
  | [] => Ok []
  | segment :: segments =>
      match parseMember segment, parseMembers segments with
      | inl m, inl ms => Ok (m :: ms)
      | inr e, _ => Err e
      | _, inr e => Err e
      end
  end.

(** Modelled from the spec: [baggage.Parse], [parse(raw) -> Document |
    ParseError]. The header is split on commas and each segment read by
    [parseMember]. The empty header is the document without members: the
    specification speaks of headers that are not empty overall and of
    members a header contains, so the empty one has none. *)
Definition Parse (raw : string) : result Baggage :=
  if decide (raw = "") then Ok [] else parseMembers (split "," raw).

(** A key can be put on the wire when it is not empty and made of visible
    ASCII characters only: no control character, no blank, nothing beyond
    the ASCII range. *)
Definition key_char (c : ascii) : bool :=
  ((33 <=? N_of_ascii c) && (N_of_ascii c <=? 126))%N.

(** Modelled from the spec: [baggage.NewMember], [newMember(key, value) ->
    Member | EncodeError]. It fails on an empty key and on a key with a
    character the wire cannot carry; no value makes it fail. *)
Definition NewMember (key value : string) : result Member :=
  if decide (key = "") then Err EncodeError
  else if all_chars key_char key
  then Ok {| Key := key; Value := value; Properties := "" |}
  else Err EncodeError.

Fixpoint has_char (c : ascii) (s : string) : bool :=
  match s with
  | EmptyString => false
  | String a s => Ascii.eqb a c || has_char c s
  end.

(** The members [NewMember] builds. *)
Definition built (m : Member) : Prop := ∃ k v, NewMember k v = inl m.

Definition no_space (s : string) : Prop :=
  all_chars (λ c, negb (Ascii.is_space c)) s = true.

Definition Member_String (m : Member) : string :=
  percent_encode (Key m) +:+ "=" +:+ percent_encode (Value m)
  +:+ (if decide (Properties m = "") then "" else ";" +:+ Properties m).

Fixpoint join (sep : string) (l : list string) : string :=
  match l with
  | [] => ""
  | [x] => x
  | x :: l => x +:+ sep +:+ join sep l
  end.

(** Modelled from the spec: [Baggage.String], [Document.serialize()]: the
    members joined with a comma and a blank, in the order given. *)
Definition Baggage_String (b : Baggage) : string :=
  join ", " (map Member_String b).

(** The ceilings of a document this producer sets: the number of members
    and the length in bytes of the serialized form. *)
Definition maxMembers : N := 180.
Definition maxBytesPerBaggageString : N := 8192.

(** Modelled from the spec: [baggage.New], [newDocument(members) ->
    Document | EncodeError]. It fails when the document would go beyond
    one of the two ceilings. *)
Definition New (members : list Member) : result Baggage :=
  if (N.of_nat (length members) <=? maxMembers)%N
     && (N.of_nat (String.length (Baggage_String members))
         <=? maxBytesPerBaggageString)%N
  then Ok members
  else Err EncodeError.

End baggage.

(** The codec of the specification as an implementation of the interface
    the dynamic sampling context calls. *)
Definition spec_codec : BaggageAPI := {|
  Baggage := baggage.Baggage;
  Member := baggage.Member;
  Parse := baggage.Parse;
  Members := baggage.Members;
  Key := baggage.Key;
  Value := baggage.Value;
  NewMember := baggage.NewMember;
  New := baggage.New;
  Baggage_String := baggage.Baggage_String;
|}.

(** ** Concrete inputs the properties are run on *)

Module examples.

(** A header with a foreign member between two members of one sentry key. *)
Definition header_dup : list Byte.byte :=
  list_byte_of_string "sentry-a=1,b=2,sentry-a=3".

Definition member (k v : string) : baggage.Member :=
  {| baggage.Key := k; baggage.Value := v; baggage.Properties := "" |}.

Definition bag_dup : baggage.Baggage :=
  [member "sentry-a" "1"; member "b" "2"; member "sentry-a" "3"].

(** A header that is not empty and has no sentry member. *)
Definition header_foreign : list Byte.byte :=
  list_byte_of_string "b=2, c=x%20y;prop".

(** A context with one entry whose key holds a control character (a line
    feed), and the only order its entries can be visited in. *)
Definition key_ctl : string := String "a" (String "010" (String "b" "")).

Definition dsc_ctl : DynamicSamplingContext :=
  {| Entries := {[ key_ctl := "v" ]}; Frozen := true |}.

Definition visited_ctl : list (string * string) := [(key_ctl, "v")].

(** A context with two entries, visited in one order and in the other. *)
Definition dsc_two : DynamicSamplingContext :=
  {| Entries := <["transaction" := "GET /"]> {[ "trace_id" := "4c79" ]};
     Frozen := false |}.

Definition visited_two : list (string * string) :=
  [("transaction", "GET /"); ("trace_id", "4c79")].

(** Two entries, for one of which no member can be built. *)
Definition visited_mixed : list (string * string) :=
  [(key_ctl, "v"); ("trace_id", "4c79")].

(** A client as in the specification's scenario, a hub with it and a scope,
    and a root span on that hub sampled at rate 0.25 but named after the
    URL. *)
Definition float64_quarter : float64 :=
  S754_finite false 4503599627370496 (-54).

Definition client_abc : Client :=
  {| dsn := Some {| publicKey := "abc" |};
     options := {| Release := "1.2.3"; Environment := "testing";
                   TracesSampleRate := float64_quarter |} |}.

Definition scope_empty : Scope :=
  {| propagationContext := {| PropagationContext_TraceID := [] |} |}.

Definition hub_abc : Hub :=
  {| Hub_Client := Some client_abc; Hub_Scope := Some scope_empty |}.

Definition hub_no_client : Hub :=
  {| Hub_Client := None; Hub_Scope := Some scope_empty |}.

Definition source_url : TransactionSource := "url".

Definition span_url : Span :=
  {| Span_TraceID := list_byte_of_string "0123456789abcdef";
     Name := "GET /users/42";
     Source := source_url;
     Sampled_ := SampledTrue;
     sampleRate := float64_quarter;
     isTransaction := true;
     ctx := {| HubContextKey := Some hub_abc |} |}.

(** The transaction of the specification's scenario: sampled at rate 1 and
    named after the route. *)
Definition float64_one : float64 := S754_finite false 4503599627370496 (-52).

Definition span_scenario : Span :=
  {| Span_TraceID :=
       [x4c; x79; xf6; x0c; x11; x21; x4e; xb3;
        x86; x04; xf4; xae; x07; x81; xbf; xb2];
     Name := "GET /";
     Source := "route";
     Sampled_ := SampledTrue;
     sampleRate := float64_one;
     isTransaction := true;
     ctx := {| HubContextKey := Some hub_abc |} |}.

(** The same span with a name taken from the route. *)
Definition span_route : Span :=
  {| Span_TraceID := Span_TraceID span_url;
     Name := "GET /users/:id";
     Source := "route";
     Sampled_ := SampledFalse;
     sampleRate := float64_zero;
     isTransaction := true;
     ctx := {| HubContextKey := None |} |}.

(** A request under a recording otel span with identifier 7, a registry
    that maps 7 to the sentry span ["tx"], and a downstream handler that
    keeps the requests it is served. Sentry spans are named by strings
    here. *)
Definition otel_recording : sentryotel.OtelSpan :=
  {| sentryotel.IsRecording := true; sentryotel.SpanContext_SpanID := 7%N |}.

Definition request_otel : sentryotel.Request string unit :=
  {| sentryotel.Request_Context :=
       {| sentryotel.currentSpanKey := Some otel_recording;
          sentryotel.spanContextKey := Some "other" |};
     sentryotel.Request_Data := tt |}.

Definition served : Type := list (sentryotel.Request string unit).

Definition state_registered : sentryotel.State string served :=
  {| sentryotel.sentrySpanMap := {[ 7%N := "tx" ]};
     sentryotel.world := [] |}.

Definition keep_request : sentryotel.Handler string unit unit served :=
  λ _ r σ,
    {| sentryotel.sentrySpanMap := sentryotel.sentrySpanMap σ;
       sentryotel.world := r :: sentryotel.world σ |}.

End examples.

(** ** Notions the further properties are stated with *)

Section Header_notions.
Context `{BaggageAPI}.

(** The members [DynamicSamplingContextFromHeader] stores: the test of its
    loop. *)
Definition sentry_member (m : Member) : bool :=
  strings.HasPrefix (Key m) sentryPrefix.

(** The keys of the members it stores, in the order of the document. *)
Definition sentry_keys (ms : list Member) : list string :=
  Key <$> filter (λ m, sentry_member m = true) ms.
End Header_notions.

(** The value a constructor writes for a configured string: none when the
    string is empty. *)
Definition non_empty (s : string) : option string :=
  if decide (s ≠ "") then Some s else None.

(** The entry [DynamicSamplingContextFromScope] writes under a key, read
    off its statements one key at a time: from a trace identifier, a sample
    rate and the client. *)
Definition scope_entry (traceID : TraceID) (rate : float64) (client : Client)
    (k : string) : option string :=
  if decide (k = "trace_id") then non_empty (TraceID_String traceID)
  else if decide (k = "sample_rate") then
    if float64_neq0 rate then Some (strconv.FormatFloat_f_shortest_64 rate)
    else None
  else if decide (k = "public_key") then
    match dsn client with
    | Some dsn => non_empty (publicKey dsn)
    | None => None
    end
  else if decide (k = "release") then non_empty (Release (options client))
  else if decide (k = "environment") then
    non_empty (Environment (options client))
  else None.

(** The same for [DynamicSamplingContextFromTransaction]. *)
Definition transaction_entry (SourceURL : TransactionSource) (span : Span)
    (client : Client) (k : string) : option string :=
  if decide (k = "sampled") then
    Some (strconv.FormatBool (Sampled_Bool (Sampled_ span)))
  else if decide (k = "transaction") then
    if decide (Source span ≠ "" ∧ Source span ≠ SourceURL)
    then if isTransaction span then Some (Name span) else None
    else None
  else scope_entry (Span_TraceID span) (sampleRate span) client k.

(** The keys the two constructors can write. *)
Definition scope_keys : list string :=
  ["trace_id"; "sample_rate"; "public_key"; "release"; "environment"].

Definition transaction_keys : list string :=
  scope_keys ++ ["transaction"; "sampled"].

(** The digits [hex.EncodeToString] writes. *)
Definition lowerhex_char (c : ascii) : bool :=
  let n := N_of_ascii c in
  ((48 <=? n) && (n <=? 57) || (97 <=? n) && (n <=? 102))%N.

(** Further inputs the properties are run on. *)
Module cases.

Definition header_a_b : list Byte.byte :=
  list_byte_of_string "sentry-a=1, x=9, sentry-b=2".

Definition bag_a_b : baggage.Baggage :=
  [examples.member "sentry-a" "1"; examples.member "x" "9";
   examples.member "sentry-b" "2"].

Definition header_b_a : list Byte.byte :=
  list_byte_of_string "sentry-b=2,sentry-a=1,x=9".

Definition bag_b_a : baggage.Baggage :=
  [examples.member "sentry-b" "2"; examples.member "sentry-a" "1";
   examples.member "x" "9"].

(** The duplicate header of [examples] without its foreign member and with
    another one at the end. *)
Definition header_dup' : list Byte.byte :=
  list_byte_of_string "sentry-a=1,sentry-a=3,zz=%41".

Definition bag_dup' : baggage.Baggage :=
  [examples.member "sentry-a" "1"; examples.member "sentry-a" "3";
   examples.member "zz" "A"].



(** A span whose trace identifier and sample rate are those of the scope
    and of the client of [examples.hub_abc]. *)
Definition span_like_scope : Span :=
  {| Span_TraceID := [];
     Name := "GET /";
     Source := "route";
     Sampled_ := SampledUndefined;
     sampleRate := examples.float64_quarter;
     isTransaction := true;
     ctx := {| HubContextKey := None |} |}.

(** A request under a recording otel span the registry does not know. *)
Definition otel_unknown : sentryotel.OtelSpan :=
  {| sentryotel.IsRecording := true; sentryotel.SpanContext_SpanID := 8%N |}.

Definition request_unknown : sentryotel.Request string unit :=
  {| sentryotel.Request_Context :=
       {| sentryotel.currentSpanKey := Some otel_unknown;
          sentryotel.spanContextKey := Some "other" |};
     sentryotel.Request_Data := tt |}.

End cases.

(** * Properties *)

Section strings_facts.
Lemma append_nil_l (s : string) : "" +:+ s = s.
Proof. reflexivity. Qed.

Lemma append_cons (c : ascii) (p s : string) :
  String c p +:+ s = String c (p +:+ s).
Proof. reflexivity. Qed.

Lemma HasPrefix_app (p s : string) : strings.HasPrefix (p +:+ s) p = true.
Proof.
  induction p as [|c p IH]; [done|].
  rewrite append_cons. cbn. rewrite Ascii.eqb_refl. exact IH.
Qed.

Lemma HasPrefix_inv (s p : string) :
  strings.HasPrefix s p = true → s = p +:+ strings.drop_len s p.
Proof.
  revert s. induction p as [|c p IH]; intros s Hp; [by destruct s|].
  destruct s as [|a s]; [done|]. cbn in Hp.
  apply andb_prop in Hp as [Hc Hp]. apply Ascii.eqb_eq in Hc as ->.
  rewrite append_cons. cbn. f_equal. by apply IH.
Qed.

Lemma drop_len_app (p s : string) : strings.drop_len (p +:+ s) p = s.
Proof. induction p as [|c p IH]; [by destruct s|]. exact IH. Qed.


Lemma HasPrefix_iff (s p : string) :
  strings.HasPrefix s p = true ↔ ∃ rest, s = p +:+ rest.
Proof.
  split.
  - intros Hp. eexists. by apply HasPrefix_inv.
  - intros [rest ->]. apply HasPrefix_app.
Qed.

Lemma TrimPrefix_app (p s : string) : strings.TrimPrefix (p +:+ s) p = s.
Proof.
  unfold strings.TrimPrefix. by rewrite HasPrefix_app, drop_len_app.
Qed.

Lemma append_assoc (s1 s2 s3 : string) :
  (s1 +:+ s2) +:+ s3 = s1 +:+ s2 +:+ s3.
Proof.
  induction s1 as [|c s1 IH]; [done|]. rewrite !append_cons. by f_equal.
Qed.

Lemma append_nil_r (s : string) : s +:+ "" = s.
Proof. induction s as [|c s IH]; [done|]. rewrite append_cons. by f_equal. Qed.

Lemma all_chars_app (p : ascii → bool) (s1 s2 : string) :
  all_chars p (s1 +:+ s2) = all_chars p s1 && all_chars p s2.
Proof.
  induction s1 as [|c s1 IH]; [done|].
  rewrite append_cons. cbn. by rewrite IH, andb_assoc.
Qed.

Lemma all_chars_impl (p q : ascii → bool) (s : string) :
  (∀ c, p c = true → q c = true) →
  all_chars p s = true → all_chars q s = true.
Proof.
  intros Hpq. induction s as [|c s IH]; [done|]. cbn.
  intros [Hc Hs]%andb_prop. by rewrite (Hpq c Hc), IH.
Qed.

End strings_facts.

(** ** [strconv.FormatFloat]: the decimal written is the shortest that
    reads back *)

Section strconv_facts.
Import strconv.
Local Open Scope Z_scope.















(** *** The layout has digits and a decimal point only *)







End strconv_facts.

Example FormatFloat_one :
  strconv.FormatFloat_f_shortest_64 (S754_finite false 4503599627370496 (-52))
    = "1".
Proof. vm_compute. reflexivity. Qed.

Example FormatFloat_tenth :
  strconv.FormatFloat_f_shortest_64 (S754_finite false 7205759403792794 (-56))
    = "0.1".
Proof. vm_compute. reflexivity. Qed.

Example FormatFloat_third :
  strconv.FormatFloat_f_shortest_64
    (S754_finite true 6004799503160661 (-54)) = "-0.3333333333333333".
Proof. vm_compute. reflexivity. Qed.

Example FormatFloat_large :
  strconv.FormatFloat_f_shortest_64 (S754_finite false 4503599627370496 18)
    = "1180591620717411300000".
Proof. vm_compute. reflexivity. Qed.

(** ** [DynamicSamplingContextFromHeader] *)

Section FromHeader_facts.
Context `{BaggageAPI}.

(** What one iteration of the loop does to the entry of a key [k]. *)
Lemma store_member_lookup (entries : gmap string string) (m : Member)
    (k : string) :
  store_member entries m !! k =
    if decide (Key m = sentryPrefix +:+ k) then Some (Value m)
    else entries !! k.
Proof.
  unfold store_member.
  destruct (strings.HasPrefix (Key m) sentryPrefix) eqn:Hp.
  - apply HasPrefix_iff in Hp as [rest Hrest]. rewrite Hrest.
    rewrite TrimPrefix_app, lookup_insert.
    destruct (decide (rest = k)) as [->|Hne].
    + by rewrite decide_True.
    + rewrite decide_False; [done|].
      intros Heq. by apply (inj (String.app sentryPrefix)) in Heq.
  - rewrite decide_False; [done|].
    intros Heq. rewrite Heq, HasPrefix_app in Hp. discriminate.
Qed.

Lemma fold_store_snoc (ms : list Member) (m : Member)
    (entries : gmap string string) :
  fold_left store_member (ms ++ [m]) entries =
    store_member (fold_left store_member ms entries) m.
Proof. by rewrite fold_left_app. Qed.

(** An entry of the result was stored for a member with the prefixed
    key, unless it was there before the loop. *)
Lemma fold_store_lookup_Some (ms : list Member)
    (entries : gmap string string) (k v : string) :
  fold_left store_member ms entries !! k = Some v →
  entries !! k = Some v ∨
  ∃ m, m ∈ ms ∧ Key m = sentryPrefix +:+ k ∧ Value m = v.
Proof.
  induction ms as [|m ms IH] using rev_ind; [by left|].
  rewrite fold_store_snoc, store_member_lookup.
  destruct (decide (Key m = sentryPrefix +:+ k)) as [Hk|Hk].
  - intros [= <-]. right. exists m. set_solver.
  - intros [?|(m' & ? & ? & ?)]%IH; [by left|].
    right. exists m'. set_solver.
Qed.

(** The last member with the prefixed key decides the entry. *)
Lemma fold_store_lookup_last (before after : list Member) (m : Member)
    (entries : gmap string string) (k : string) :
  Key m = sentryPrefix +:+ k →
  (∀ m', m' ∈ after → Key m' ≠ sentryPrefix +:+ k) →
  fold_left store_member (before ++ m :: after) entries !! k
    = Some (Value m).
Proof.
  intros Hk. induction after as [|m' after IH] using rev_ind; intros Hafter.
  - rewrite fold_store_snoc, store_member_lookup. by rewrite decide_True.
  - replace (before ++ m :: after ++ [m'])
      with ((before ++ m :: after) ++ [m']) by by rewrite <-app_assoc.
    rewrite fold_store_snoc, store_member_lookup.
    rewrite decide_False by (apply Hafter; set_solver).
    apply IH. intros m'' Hin. apply Hafter. set_solver.
Qed.

(** Every member with the prefixed key leaves an entry under the
    stripped key. *)
Lemma fold_store_lookup_is_Some (ms : list Member)
    (entries : gmap string string) (m : Member) (k : string) :
  m ∈ ms → Key m = sentryPrefix +:+ k →
  is_Some (fold_left store_member ms entries !! k).
Proof.
  intros Hin Hk. induction ms as [|m' ms IH] using rev_ind; [set_solver|].
  rewrite fold_store_snoc, store_member_lookup.
  destruct (decide (Key m' = sentryPrefix +:+ k)); [by eexists|].
  apply IH. apply elem_of_app in Hin as [?|Hin]; [done|].
  apply list_elem_of_singleton in Hin as ->. done.
Qed.

Lemma FromHeader_parsed (header : list Byte.byte) (bag : Baggage) :
  Parse (string_of_list_byte header) = inl bag →
  DynamicSamplingContextFromHeader header =
    ({| Entries := fold_left store_member (Members bag) ∅;
        Frozen :=
          bool_decide (0 < size (fold_left store_member (Members bag) ∅)) |},
     None).
Proof. intros Hparse. unfold DynamicSamplingContextFromHeader. by rewrite Hparse. Qed.

Lemma size_pos_iff (m : gmap string string) :
  0 < size m ↔ ∃ k, is_Some (m !! k).
Proof.
  split.
  - intros Hs. apply map_size_ne_0_lookup. lia.
  - intros [k Hk]. apply map_size_ne_0_lookup_2 in Hk. lia.
Qed.
End FromHeader_facts.

(** Claim C2. For a header that parses, the context returned by
    [DynamicSamplingContextFromHeader] is frozen exactly when some member
    of the parsed document has a key that starts with ["sentry-"]; with no
    such member it is not frozen, whatever else the header holds. *)
Theorem FromHeader_frozen_iff `{BaggageAPI} (header : list Byte.byte)
    (bag : Baggage) :
  Parse (string_of_list_byte header) = inl bag →
  (DynamicSamplingContextFromHeader header).2 = None ∧
  (Frozen (DynamicSamplingContextFromHeader header).1 = true ↔
     ∃ m rest, m ∈ Members bag ∧ Key m = sentryPrefix +:+ rest) ∧
  ((∀ m rest, m ∈ Members bag → Key m ≠ sentryPrefix +:+ rest) →
     Frozen (DynamicSamplingContextFromHeader header).1 = false).
Proof.
  intros Hparse. rewrite (FromHeader_parsed _ _ Hparse). cbn.
  assert (bool_decide (0 < size (fold_left store_member (Members bag) ∅))
            = true ↔
          ∃ m rest, m ∈ Members bag ∧ Key m = sentryPrefix +:+ rest) as Hiff.
  { rewrite bool_decide_eq_true, size_pos_iff. split.
    - intros (k & v & Hv).
      apply fold_store_lookup_Some in Hv as [Hv|(m & ? & ? & ?)];
        [by rewrite lookup_empty in Hv|].
      by exists m, k.
    - intros (m & rest & Hin & Hk). exists rest.
      by eapply fold_store_lookup_is_Some. }
  split; [done|]. split; [done|].
  intros Hnone. apply not_true_is_false. rewrite Hiff.
  intros (m & rest & Hin & Hk). by eapply Hnone.
Qed.

Lemma FromHeader_frozen_iff_on_duplicates :
  @Parse spec_codec (string_of_list_byte examples.header_dup)
    = inl examples.bag_dup ∧
  (Frozen (@DynamicSamplingContextFromHeader spec_codec
             examples.header_dup).1 = true ↔
   ∃ m rest, m ∈ examples.bag_dup ∧ baggage.Key m = sentryPrefix +:+ rest).
Proof.
  split; [reflexivity|].
  exact (proj1 (proj2 (@FromHeader_frozen_iff spec_codec examples.header_dup
                         examples.bag_dup eq_refl))).
Defined.

(** Claim C4. For a header that parses, every entry [k ↦ v] of the context
    returned by [DynamicSamplingContextFromHeader] comes from a member of
    the parsed document whose key is exactly ["sentry-"] followed by [k]
    and whose value is [v]: no member without the prefix reaches the
    entries, and the keys are stored without the prefix. *)
Theorem FromHeader_entries_prefixed `{BaggageAPI} (header : list Byte.byte)
    (bag : Baggage) (k v : string) :
  Parse (string_of_list_byte header) = inl bag →
  Entries (DynamicSamplingContextFromHeader header).1 !! k = Some v →
  ∃ m, m ∈ Members bag ∧ Key m = sentryPrefix +:+ k ∧ Value m = v.
Proof.
  intros Hparse. rewrite (FromHeader_parsed _ _ Hparse). cbn.
  intros [Hv|Hm]%fold_store_lookup_Some; [|done].
  by rewrite lookup_empty in Hv.
Qed.

Lemma FromHeader_entries_prefixed_on_duplicates :
  ∃ m, m ∈ examples.bag_dup ∧ baggage.Key m = "sentry-a"
       ∧ baggage.Value m = "3".
Proof.
  exact (@FromHeader_entries_prefixed spec_codec examples.header_dup
           examples.bag_dup "a" "3" eq_refl eq_refl).
Defined.

(** Claim C10. For a header that parses, the entry of a stripped key [k] is
    the value of the last member of the parsed document whose key is
    ["sentry-"] followed by [k]: of several members with one key, the last
    in the sequence wins. *)
Theorem FromHeader_last_wins `{BaggageAPI} (header : list Byte.byte)
    (bag : Baggage) (before after : list Member) (m : Member) (k : string) :
  Parse (string_of_list_byte header) = inl bag →
  Members bag = before ++ m :: after →
  Key m = sentryPrefix +:+ k →
  (∀ m', m' ∈ after → Key m' ≠ sentryPrefix +:+ k) →
  Entries (DynamicSamplingContextFromHeader header).1 !! k = Some (Value m).
Proof.
  intros Hparse Hms Hk Hafter. rewrite (FromHeader_parsed _ _ Hparse). cbn.
  rewrite Hms. by apply fold_store_lookup_last.
Qed.

Lemma FromHeader_last_wins_on_duplicates :
  Entries (@DynamicSamplingContextFromHeader spec_codec
             examples.header_dup).1 !! "a" = Some "3".
Proof.
  apply (@FromHeader_last_wins spec_codec examples.header_dup
           examples.bag_dup
           [examples.member "sentry-a" "1"; examples.member "b" "2"] []
           (examples.member "sentry-a" "3") "a");
    [reflexivity | reflexivity | reflexivity |].
  intros m' Hin. by apply elem_of_nil in Hin.
Defined.

(** ** [DynamicSamplingContext.String] *)

Section Serialize_facts.
Context `{BaggageAPI}.

Lemma append_member_encodable (members : list Member)
    (e : string * string) :
  append_member members e = members ++ option_list (encodable_member e).
Proof.
  destruct e as [k entry]. unfold append_member, encodable_member. cbn.
  destruct (NewMember (sentryPrefix +:+ k) entry); cbn;
    by rewrite ?app_nil_r.
Qed.

(** The loop collects the surviving members behind those it started
    with. *)
Lemma fold_append_member (visited : list (string * string))
    (members : list Member) :
  fold_left append_member visited members
    = members ++ surviving_members visited.
Proof.
  revert members. induction visited as [|e visited IH]; intros members.
  - by rewrite app_nil_r.
  - cbn [fold_left]. rewrite IH, append_member_encodable, <-app_assoc.
    f_equal. unfold surviving_members. simpl omap.
    by destruct (encodable_member e).
Qed.

Lemma String_visiting_spec (visited : list (string * string)) :
  String_visiting visited = serialize_spec visited.
Proof.
  unfold String_visiting, serialize_spec.
  rewrite fold_append_member, app_nil_l.
  by destruct (surviving_members visited).
Qed.
End Serialize_facts.

(** Claim C9. Serialization is a total function to strings and hands no
    error on: on every run, whatever the order in which the entries are
    visited, the entries for which no member can be built are skipped and
    the others are serialized in the order visited; the result is the empty
    string when no member is left (so when there is no entry) and when the
    document cannot be built. *)
Theorem String_best_effort `{BaggageAPI} (visited : list (string * string)) :
  String_visiting visited =
    match omap encodable_member visited with
    | [] => ""
    | members =>
        match New members with
        | inl document => Baggage_String document
        | inr _ => ""
        end
    end
  ∧ (visited = [] → String_visiting visited = "")
  ∧ (∀ e, e ∈ visited →
       (∀ m, NewMember (sentryPrefix +:+ e.1) e.2 = inl m →
             m ∈ omap encodable_member visited)
       ∧ (∀ err, NewMember (sentryPrefix +:+ e.1) e.2 = inr err →
             omap encodable_member (filter (λ e', e' ≠ e) visited)
               = omap encodable_member visited)).
Proof.
  split; [apply String_visiting_spec|]. split; [by intros ->|].
  intros e Hin. split.
  - intros m Hm. apply list_elem_of_omap. exists e. split; [done|].
    unfold encodable_member. by rewrite Hm.
  - intros err Herr. clear Hin.
    assert (encodable_member e = None) as Hnone.
    { unfold encodable_member. by rewrite Herr. }
    induction visited as [|e' visited IH]; [done|].
    rewrite filter_cons.
    destruct (decide (e' ≠ e)) as [Hne|Heq%dec_stable]; simpl.
    + destruct (encodable_member e'); [f_equal|]; exact IH.
    + subst e'. rewrite Hnone. exact IH.
Qed.

Lemma String_best_effort_mixed :
  @String_visiting spec_codec examples.visited_mixed = "sentry-trace_id=4c79".
Proof.
  rewrite (proj1 (@String_best_effort spec_codec examples.visited_mixed)).
  reflexivity.
Defined.

(** ** Writing a header and reading it back *)

Section Roundtrip_facts.
Context `{BaggageAPI}.
Hypothesis codec_ok : codec_reads_back.

(** When every entry visited builds a member, the surviving members carry
    the prefixed keys and the values of the entries, in that order. *)
Lemma surviving_members_all (visited : list (string * string)) :
  Forall (λ e, is_Some (encodable_member e)) visited →
  key_value <$> surviving_members visited = prefixed <$> visited
  ∧ Forall (λ m, ∃ k v, NewMember k v = inl m) (surviving_members visited).
Proof.
  destruct codec_ok as [Hkv _].
  induction 1 as [|e visited [m Hm] _ [IHkv IHall]]; [by split|].
  unfold surviving_members. simpl. rewrite Hm.
  unfold encodable_member in Hm.
  destruct (NewMember (sentryPrefix +:+ e.1) e.2) as [m'|] eqn:Hnew;
    [|done].
  injection Hm as ->. split.
  - rewrite fmap_cons. f_equal; [by apply Hkv | exact IHkv].
  - constructor; [by eauto | exact IHall].
Qed.

(** Reading members with the prefixed keys of [visited] stores exactly
    the entries of [visited]. *)
Lemma fold_store_prefixed (ms : list Member) (d : DynamicSamplingContext)
    (visited : list (string * string)) :
  range_of (Entries d) visited →
  key_value <$> ms = prefixed <$> visited →
  fold_left store_member ms ∅ = Entries d.
Proof.
  intros Hrange Hkv.
  assert (∀ k v, (∃ m, m ∈ ms ∧ Key m = sentryPrefix +:+ k ∧ Value m = v)
                 ↔ Entries d !! k = Some v) as Hmem.
  { intros k v. rewrite <-elem_of_map_to_list, <-Hrange. split.
    - intros (m & Hin & Hk & Hv).
      assert (key_value m ∈ prefixed <$> visited) as Hin'.
      { rewrite <-Hkv. by apply list_elem_of_fmap_2. }
      apply list_elem_of_fmap in Hin' as ([k' v'] & Heq & Hin').
      unfold key_value, prefixed in Heq. rewrite Hk, Hv in Heq.
      apply pair_equal_spec in Heq as [Hk' ->].
      by apply (inj (String.app sentryPrefix)) in Hk' as ->.
    - intros Hin.
      assert (prefixed (k, v) ∈ key_value <$> ms) as Hin'.
      { rewrite Hkv. by apply list_elem_of_fmap_2. }
      apply list_elem_of_fmap in Hin' as (m & Heq & Hin').
      exists m. unfold key_value, prefixed in Heq.
      by apply pair_equal_spec in Heq as [<- <-]. }
  apply map_eq. intros k.
  destruct (Entries d !! k) as [v|] eqn:Hd.
  - apply Hmem in Hd as Hm. destruct Hm as (m & Hin & Hk & Hv).
    destruct (fold_store_lookup_is_Some ms ∅ m k Hin Hk) as [v' Hv'].
    rewrite Hv'. f_equal.
    apply fold_store_lookup_Some in Hv' as [Hv'|Hm'];
      [by rewrite lookup_empty in Hv'|].
    apply Hmem in Hm'. congruence.
  - destruct (fold_left store_member ms ∅ !! k) as [v|] eqn:Hf; [|done].
    apply fold_store_lookup_Some in Hf as [Hf|Hm];
      [by rewrite lookup_empty in Hf|].
    apply Hmem in Hm. congruence.
Qed.

Lemma roundtrip_of_codec (d : DynamicSamplingContext)
    (visited : list (string * string)) (document : Baggage) :
  Entries d ≠ ∅ →
  range_of (Entries d) visited →
  Forall (λ e, is_Some (encodable_member e)) visited →
  New (surviving_members visited) = inl document →
  DynamicSamplingContextFromHeader
    (list_byte_of_string (String_visiting visited))
    = ({| Entries := Entries d; Frozen := true |}, None).
Proof.
  intros Hne Hrange Hall Hnew.
  destruct (surviving_members_all visited Hall) as [Hkv Hbuilt].
  assert (surviving_members visited ≠ []) as Hms.
  { intros Hnil. rewrite Hnil in Hkv. symmetry in Hkv.
    apply fmap_nil_inv in Hkv. subst visited.
    apply Hne, map_to_list_empty_iff. unfold range_of in Hrange.
    by apply Permutation_nil_l in Hrange. }
  destruct codec_ok as [_ Hback].
  destruct (Hback _ _ Hms Hbuilt Hnew) as (parsed & Hparse & Hparsed).
  assert (String_visiting visited = Baggage_String document) as ->.
  { rewrite String_visiting_spec. unfold serialize_spec.
    destruct (surviving_members visited); [done|]. by rewrite Hnew. }
  rewrite (FromHeader_parsed _ parsed)
    by by rewrite string_of_list_byte_of_string.
  rewrite (fold_store_prefixed _ d visited) by by rewrite ?Hparsed.
  do 2 f_equal. apply bool_decide_eq_true.
  apply map_size_non_empty_iff in Hne. lia.
Qed.
End Roundtrip_facts.

(** ** The codec of the specification reads back what it writes *)

Section codec_facts.
Import baggage.

(** *** Characters *)

Lemma wire_char_not_delimiter (c : ascii) :
  wire_char c = true → is_delimiter c = false.
Proof. destruct c as [[] [] [] [] [] [] [] []]; by vm_compute. Qed.

Lemma unreserved_not_percent (c : ascii) :
  unreserved c = true → c ≠ "%"%char.
Proof. by intros Hc ->. Qed.

Lemma upperhex_wire (c : ascii) :
  wire_char (upperhex (N_of_ascii c / 16)) = true
  ∧ wire_char (upperhex (N_of_ascii c mod 16)) = true.
Proof. destruct c as [[] [] [] [] [] [] [] []]; by vm_compute. Qed.

Lemma unhex_upperhex (c : ascii) :
  ∃ a b,
    unhex (upperhex (N_of_ascii c / 16)) = Some a
    ∧ unhex (upperhex (N_of_ascii c mod 16)) = Some b
    ∧ ascii_of_N (16 * a + b) = c.
Proof.
  destruct c as [[] [] [] [] [] [] [] []];
    by (do 2 eexists; repeat split; vm_compute; reflexivity).
Qed.

(** *** Percent encoding *)

Lemma percent_decode_literal (c : ascii) (s : string) :
  c ≠ "%"%char →
  percent_decode (String c s) = String c <$> percent_decode s.
Proof.
  intros Hc.
  destruct c as [[] [] [] [] [] [] [] []]; try done;
    by (cbn; destruct (percent_decode s)).
Qed.

Lemma percent_decode_escape (h l : ascii) (s : string) :
  percent_decode (String "%" (String h (String l s))) =
    match unhex h, unhex l, percent_decode s with
    | Some a, Some b, Some t => Some (String (ascii_of_N (16 * a + b)) t)
    | _, _, _ => None
    end.
Proof. reflexivity. Qed.

Lemma percent_decode_encode (s : string) :
  percent_decode (percent_encode s) = Some s.
Proof.
  induction s as [|c s IH]; [done|]. cbn [percent_encode].
  destruct (unreserved c) eqn:Hc.
  - rewrite percent_decode_literal by by apply unreserved_not_percent.
    by rewrite IH.
  - rewrite percent_decode_escape, IH.
    destruct (unhex_upperhex c) as (a & b & -> & -> & ->). done.
Qed.

Lemma percent_encode_wire (s : string) :
  all_chars wire_char (percent_encode s) = true.
Proof.
  induction s as [|c s IH]; [done|]. cbn [percent_encode].
  destruct (unreserved c) eqn:Hc; cbn [all_chars].
  - rewrite IH. unfold wire_char. by rewrite Hc.
  - destruct (upperhex_wire c) as [-> ->]. by rewrite IH.
Qed.

(** *** Splitting, cutting and trimming *)

Lemma has_char_app (c : ascii) (s1 s2 : string) :
  has_char c (s1 +:+ s2) = has_char c s1 || has_char c s2.
Proof.
  induction s1 as [|a s1 IH]; [done|].
  rewrite append_cons. cbn. by rewrite IH, orb_assoc.
Qed.

Lemma has_char_wire (c : ascii) (s : string) :
  is_delimiter c = true → all_chars wire_char s = true →
  has_char c s = false.
Proof.
  intros Hc. induction s as [|a s IH]; [done|]. cbn.
  intros [Ha Hs]%andb_prop. rewrite (IH Hs), orb_false_r.
  apply Ascii.eqb_neq. intros ->.
  apply wire_char_not_delimiter in Ha. congruence.
Qed.

Lemma split_no_sep (sep : ascii) (s : string) :
  has_char sep s = false → split sep s = [s].
Proof.
  induction s as [|a s IH]; [done|]. cbn.
  intros [Ha Hs]%orb_false_elim. by rewrite Ha, (IH Hs).
Qed.

Lemma split_app_sep (sep : ascii) (s1 s2 : string) :
  has_char sep s1 = false →
  split sep (s1 +:+ String sep s2) = s1 :: split sep s2.
Proof.
  induction s1 as [|a s1 IH].
  - intros _. rewrite append_nil_l. cbn. by rewrite Ascii.eqb_refl.
  - cbn. intros [Ha Hs]%orb_false_elim.
    rewrite append_cons. cbn. by rewrite Ha, (IH Hs).
Qed.

Lemma cut_no_sep (sep : ascii) (s : string) :
  has_char sep s = false → cut sep s = (s, None).
Proof.
  induction s as [|a s IH]; [done|]. cbn.
  intros [Ha Hs]%orb_false_elim. by rewrite Ha, (IH Hs).
Qed.

Lemma cut_app_sep (sep : ascii) (s1 s2 : string) :
  has_char sep s1 = false →
  cut sep (s1 +:+ String sep s2) = (s1, Some s2).
Proof.
  induction s1 as [|a s1 IH].
  - intros _. rewrite append_nil_l. cbn. by rewrite Ascii.eqb_refl.
  - cbn. intros [Ha Hs]%orb_false_elim.
    rewrite append_cons. cbn. by rewrite Ha, (IH Hs).
Qed.

Lemma trim_right_no_space (s : string) : no_space s → trim_right s = s.
Proof.
  unfold no_space. induction s as [|a s IH]; [done|]. cbn.
  intros [Ha Hs]%andb_prop. rewrite (IH Hs).
  destruct s; [|done]. by destruct (Ascii.is_space a).
Qed.

Lemma trim_left_no_space (s : string) : no_space s → trim_left s = s.
Proof.
  unfold no_space. destruct s as [|a s]; [done|]. cbn.
  intros [Ha _]%andb_prop. by destruct (Ascii.is_space a).
Qed.

Lemma trim_no_space (s : string) : no_space s → trim s = s.
Proof.
  intros Hs. unfold trim. by rewrite trim_left_no_space, trim_right_no_space.
Qed.

Lemma trim_blank (s : string) : trim (String " " s) = trim s.
Proof. reflexivity. Qed.

(** *** One member *)

Lemma built_inv (m : Member) :
  built m → Key m ≠ "" ∧ Properties m = "".
Proof.
  intros (k & v & Hnew). unfold NewMember in Hnew.
  destruct (decide (k = "")); [done|].
  destruct (all_chars key_char k); [|done].
  injection Hnew as <-. done.
Qed.

Lemma Member_String_built (m : Member) :
  built m →
  Member_String m
    = percent_encode (Key m) +:+ String "=" (percent_encode (Value m)).
Proof.
  intros [_ Hprops]%built_inv. unfold Member_String. rewrite Hprops.
  rewrite decide_True by done. by rewrite append_nil_r.
Qed.

Lemma Member_String_has_char (m : Member) (c : ascii) :
  built m → is_delimiter c = true → c ≠ "="%char →
  has_char c (Member_String m) = false.
Proof.
  intros Hm Hc Hne. rewrite (Member_String_built m Hm), has_char_app.
  change (has_char c (String "=" ?s))
    with (Ascii.eqb "=" c || has_char c s).
  rewrite !(has_char_wire c) by (done || apply percent_encode_wire).
  apply Ascii.eqb_neq in Hne. rewrite Ascii.eqb_sym in Hne. by rewrite Hne.
Qed.

Lemma Member_String_no_space (m : Member) :
  built m → no_space (Member_String m).
Proof.
  intros Hm. unfold no_space. rewrite (Member_String_built m Hm).
  rewrite all_chars_app.
  change (all_chars ?p (String "=" ?s)) with (true && all_chars p s).
  assert (∀ s, all_chars wire_char s = true →
               all_chars (λ c, negb (Ascii.is_space c)) s = true) as Hwire.
  { intros s. apply all_chars_impl. intros c Hc%wire_char_not_delimiter.
    unfold is_delimiter in Hc. apply orb_false_elim in Hc as [_ ->]. done. }
  by rewrite !Hwire by apply percent_encode_wire.
Qed.

Lemma parseMember_String (m : Member) (blank : bool) :
  built m →
  parseMember ((if blank then " " else "") +:+ Member_String m) = inl m.
Proof.
  intros Hm. unfold parseMember.
  assert (trim ((if blank then " " else "") +:+ Member_String m)
            = Member_String m) as ->.
  { destruct blank; rewrite ?append_cons, ?trim_blank, append_nil_l;
      by apply trim_no_space, Member_String_no_space. }
  rewrite cut_no_sep by by apply Member_String_has_char.
  rewrite trim_no_space by by apply Member_String_no_space.
  rewrite (Member_String_built m Hm).
  rewrite cut_app_sep by by apply has_char_wire, percent_encode_wire.
  rewrite !percent_decode_encode.
  destruct (built_inv m Hm) as [Hkey Hprops].
  rewrite decide_False by done. destruct m as [k v props].
  cbn in Hprops. by subst props.
Qed.

(** *** A whole document *)

Lemma join_cons_cons (sep x y : string) (l : list string) :
  join sep (x :: y :: l) = x +:+ sep +:+ join sep (y :: l).
Proof. reflexivity. Qed.

Lemma parseMembers_cons (segment : string) (segments : list string)
    (m : Member) (ms : Baggage) :
  parseMember segment = inl m → parseMembers segments = inl ms →
  parseMembers (segment :: segments) = inl (m :: ms).
Proof. intros Hm Hms. cbn. by rewrite Hm, Hms. Qed.

Lemma parseMembers_join (ms : list Member) (blank : bool) :
  ms ≠ [] → Forall built ms →
  parseMembers
    (split "," ((if blank then " " else "")
                +:+ join ", " (map Member_String ms))) = inl ms.
Proof.
  intros Hne Hall. revert blank.
  induction Hall as [|m ms Hm Hms IH]; [done|]. intros blank.
  assert (has_char "," ((if blank then " " else "") +:+ Member_String m)
            = false) as Hcomma.
  { rewrite has_char_app, Member_String_has_char by done.
    by destruct blank. }
  destruct ms as [|m' ms].
  - cbn [map join]. rewrite split_no_sep by done.
    apply parseMembers_cons; [by apply parseMember_String | done].
  - cbn [map]. rewrite join_cons_cons, <-append_assoc.
    change (", " +:+ ?j) with (String "," (" " +:+ j)).
    rewrite split_app_sep by done.
    apply parseMembers_cons; [by apply parseMember_String|].
    by apply (IH ltac:(done) true).
Qed.

Lemma Baggage_String_not_empty (m : Member) (ms : list Member) :
  built m → Baggage_String (m :: ms) ≠ "".
Proof.
  intros Hm Hnil.
  assert (has_char "=" (Baggage_String (m :: ms)) = true) as Heq.
  { unfold Baggage_String. cbn [map].
    assert (∃ t, join ", " (Member_String m :: map Member_String ms)
                 = Member_String m +:+ t) as [t ->].
    { destruct ms; [exists ""; by rewrite append_nil_r | by eexists]. }
    rewrite has_char_app, (Member_String_built m Hm), has_char_app.
    cbn. by rewrite orb_true_r. }
  by rewrite Hnil in Heq.
Qed.

(** The codec of the specification meets what the dynamic sampling
    context needs of it. *)
Lemma spec_codec_reads_back : @codec_reads_back spec_codec.
Proof.
  split.
  - intros k v m Hnew. cbn in Hnew. unfold NewMember in Hnew.
    destruct (decide (k = "")); [done|].
    destruct (all_chars key_char k); [|done]. by injection Hnew as <-.
  - intros members document Hne Hall Hnew. cbn in *.
    assert (document = members) as ->.
    { unfold New in Hnew. by destruct (_ && _); [injection Hnew|]. }
    exists members. split; [|done]. unfold Parse.
    destruct members as [|m ms]; [done|].
    rewrite decide_False
      by (apply Baggage_String_not_empty; by inversion Hall).
    by apply (parseMembers_join (m :: ms) false).
Qed.
End codec_facts.

(** Claim C1, as stated: every context with entries reads back from the
    header it writes. It fails on the codec of the specification for an
    entry whose key no member can be built for: the entry is skipped, the
    header is empty, and what is read back has no entry and is not
    frozen. *)
Lemma roundtrip_fails_on_control_key :
  Entries examples.dsc_ctl ≠ ∅
  ∧ range_of (Entries examples.dsc_ctl) examples.visited_ctl
  ∧ @String_visiting spec_codec examples.visited_ctl = ""
  ∧ @DynamicSamplingContextFromHeader spec_codec
      (list_byte_of_string (@String_visiting spec_codec examples.visited_ctl))
      = ({| Entries := ∅; Frozen := false |}, None)
  ∧ ¬ @reads_back_as spec_codec examples.dsc_ctl examples.visited_ctl.
Proof.
  split; [apply insert_non_empty|].
  split; [unfold range_of, examples.dsc_ctl; cbn [Entries];
          by rewrite map_to_list_singleton|].
  split; [reflexivity|]. split; [reflexivity|].
  unfold reads_back_as. intros Heq.
  assert (Frozen (@DynamicSamplingContextFromHeader spec_codec
            (list_byte_of_string
               (@String_visiting spec_codec examples.visited_ctl))).1 = true)
    as Hfrozen by by rewrite Heq.
  discriminate Hfrozen.
Qed.

(** Claim C1, amended. A context with entries, every one of which builds a
    member and which together build a document, reads back from the header
    it writes, in whatever order the entries are visited: parsing succeeds,
    the entries are those of the context and the result is frozen. *)
Theorem roundtrip_when_all_encode (d : DynamicSamplingContext)
    (visited : list (string * string)) (document : baggage.Baggage) :
  Entries d ≠ ∅ →
  range_of (Entries d) visited →
  Forall (λ e, ∃ m, baggage.NewMember (sentryPrefix +:+ e.1) e.2 = inl m)
    visited →
  baggage.New (@surviving_members spec_codec visited) = inl document →
  @DynamicSamplingContextFromHeader spec_codec
    (list_byte_of_string (@String_visiting spec_codec visited))
    = ({| Entries := Entries d; Frozen := true |}, None).
Proof.
  intros Hne Hrange Hall Hnew.
  apply (roundtrip_of_codec spec_codec_reads_back d visited document);
    [done..| |done].
  eapply Forall_impl; [exact Hall|]. intros e [m Hm].
  exists m. unfold encodable_member. cbn. by rewrite Hm.
Qed.

Lemma roundtrip_when_all_encode_two_entries :
  @DynamicSamplingContextFromHeader spec_codec
    (list_byte_of_string (@String_visiting spec_codec examples.visited_two))
    = ({| Entries := Entries examples.dsc_two; Frozen := true |}, None).
Proof.
  apply (roundtrip_when_all_encode examples.dsc_two examples.visited_two
           (@surviving_members spec_codec examples.visited_two)).
  - apply insert_non_empty.
  - unfold range_of. vm_compute. apply perm_swap.
  - repeat constructor; eexists; vm_compute; reflexivity.
  - vm_compute. reflexivity.
Defined.

(** ** The constructors from a transaction and from a scope *)

Section Constructors_facts.
Variable SourceURL : TransactionSource.
Variable currentHub : Hub.

(** The client's statements write under their three keys only. *)
Lemma client_entries_lookup_ne (client : Client)
    (entries : gmap string string) (k : string) :
  k ≠ "public_key" → k ≠ "release" → k ≠ "environment" →
  client_entries client entries !! k = entries !! k.
Proof.
  intros Hpk Hrel Henv. unfold client_entries.
  destruct (dsn client) as [d|];
    repeat case_decide; by rewrite ?lookup_insert_ne by done.
Qed.

(** The constructor's result when the hub has a client and a scope. *)
Lemma FromTransaction_present (span : Span) (client : Client)
    (scope : Scope) :
  Hub_Client (hubFromContext currentHub (ctx span)) = Some client →
  Hub_Scope (hubFromContext currentHub (ctx span)) = Some scope →
  ∃ entries,
    DynamicSamplingContextFromTransaction SourceURL currentHub span
      = {| Entries :=
             <["sampled" :=
                 strconv.FormatBool (Sampled_Bool (Sampled_ span))]>
               (if decide (Source span ≠ "" ∧ Source span ≠ SourceURL)
                then if isTransaction span
                     then <["transaction" := Name span]> entries
                     else entries
                else entries);
           Frozen := true |}
    ∧ entries !! "transaction" = None
    ∧ entries !! "sampled" = None
    ∧ entries !! "sample_rate" =
        if float64_neq0 (sampleRate span)
        then Some (strconv.FormatFloat_f_shortest_64 (sampleRate span))
        else None.
Proof.
  intros Hclient Hscope. eexists. split.
  - unfold DynamicSamplingContextFromTransaction.
    rewrite Hclient, Hscope. reflexivity.
  - rewrite !client_entries_lookup_ne by done.
    repeat split; repeat case_decide; repeat case_match;
      by rewrite ?lookup_insert_eq, ?lookup_insert_ne, ?lookup_empty
        by done.
Qed.
End Constructors_facts.



(** Claim C6. For a span whose hub has a client and a scope, the context
    built by [DynamicSamplingContextFromTransaction] has a ["transaction"]
    entry only if the span is a transaction and its source is not
    [SourceURL], and the entry is then the span's name; a span whose source
    is [SourceURL] gets no ["transaction"] entry, whatever its name. *)
Theorem FromTransaction_transaction (SourceURL : TransactionSource)
    (currentHub : Hub) (span : Span) (client : Client) (scope : Scope) :
  Hub_Client (hubFromContext currentHub (ctx span)) = Some client →
  Hub_Scope (hubFromContext currentHub (ctx span)) = Some scope →
  let d := DynamicSamplingContextFromTransaction SourceURL currentHub span in
  (∀ name, Entries d !! "transaction" = Some name →
     isTransaction span = true ∧ Source span ≠ SourceURL
     ∧ name = Name span)
  ∧ (Source span = SourceURL → Entries d !! "transaction" = None).
Proof.
  intros Hclient Hscope d.
  destruct (FromTransaction_present SourceURL currentHub span client scope
              Hclient Hscope) as (entries & Hd & Htx & _ & _).
  subst d. rewrite Hd. cbn [Entries]. rewrite lookup_insert_ne by done.
  split.
  - intros name.
    destruct (decide (Source span ≠ "" ∧ Source span ≠ SourceURL))
      as [[_ Hurl]|_]; [|by rewrite Htx].
    destruct (isTransaction span); [|by rewrite Htx].
    rewrite lookup_insert_eq. by intros [= <-].
  - intros Hurl. rewrite decide_False by (by intros [_ ?]). exact Htx.
Qed.

Lemma FromTransaction_transaction_url :
  Entries (DynamicSamplingContextFromTransaction examples.source_url
             examples.hub_no_client examples.span_url) !! "transaction"
    = None.
Proof.
  apply (FromTransaction_transaction examples.source_url
           examples.hub_no_client examples.span_url examples.client_abc
           examples.scope_empty eq_refl eq_refl).
  reflexivity.
Defined.

(** Claim C7. For a span whose hub has a client and a scope, the context
    built by [DynamicSamplingContextFromTransaction] always has a
    ["sampled"] entry: ["true"] when the span's sampling decision is
    [SampledTrue] and ["false"] otherwise, whatever the other fields. *)
Theorem FromTransaction_sampled (SourceURL : TransactionSource)
    (currentHub : Hub) (span : Span) (client : Client) (scope : Scope) :
  Hub_Client (hubFromContext currentHub (ctx span)) = Some client →
  Hub_Scope (hubFromContext currentHub (ctx span)) = Some scope →
  Entries (DynamicSamplingContextFromTransaction SourceURL currentHub span)
    !! "sampled"
    = Some match Sampled_ span with
           | SampledTrue => "true"
           | SampledFalse | SampledUndefined => "false"
           end.
Proof.
  intros Hclient Hscope.
  destruct (FromTransaction_present SourceURL currentHub span client scope
              Hclient Hscope) as (entries & -> & _).
  cbn [Entries]. rewrite lookup_insert_eq.
  by destruct (Sampled_ span).
Qed.

Lemma FromTransaction_sampled_false :
  Entries (DynamicSamplingContextFromTransaction examples.source_url
             examples.hub_abc examples.span_route) !! "sampled"
    = Some "false".
Proof.
  exact (FromTransaction_sampled examples.source_url examples.hub_abc
           examples.span_route examples.client_abc examples.scope_empty
           eq_refl eq_refl).
Defined.

(** Claim C8. When the client or the scope is absent, both
    [DynamicSamplingContextFromTransaction] and
    [DynamicSamplingContextFromScope] return the context without entries
    and not frozen; both are total functions with no error result. *)
Theorem constructors_without_client_or_scope (SourceURL : TransactionSource)
    (currentHub : Hub) :
  (∀ span,
     Hub_Client (hubFromContext currentHub (ctx span)) = None
     ∨ Hub_Scope (hubFromContext currentHub (ctx span)) = None →
     DynamicSamplingContextFromTransaction SourceURL currentHub span
       = {| Entries := ∅; Frozen := false |})
  ∧ (∀ scope client,
       client = None ∨ scope = None →
       DynamicSamplingContextFromScope scope client
         = {| Entries := ∅; Frozen := false |}).
Proof.
  split.
  - intros span Habsent. unfold DynamicSamplingContextFromTransaction.
    destruct (Hub_Client _), (Hub_Scope _); by destruct Habsent.
  - intros scope client Habsent. unfold DynamicSamplingContextFromScope.
    destruct client, scope; by destruct Habsent.
Qed.

Lemma constructors_without_client :
  DynamicSamplingContextFromTransaction examples.source_url
    examples.hub_no_client examples.span_route
    = {| Entries := ∅; Frozen := false |}
  ∧ DynamicSamplingContextFromScope (Some examples.scope_empty) None
    = {| Entries := ∅; Frozen := false |}.
Proof.
  destruct (constructors_without_client_or_scope examples.source_url
              examples.hub_no_client) as [Htx Hscope].
  split.
  - apply Htx. left. reflexivity.
  - apply Hscope. left. reflexivity.
Defined.

(** ** The continuation middleware *)

Section Middleware_facts.
Import sentryotel.
Context {SentrySpan RequestData ResponseWriter World : Type}.

Lemma ContinueFromOtel_registered (w : ResponseWriter)
    (r : Request SentrySpan RequestData) (σ : State SentrySpan World)
    (otel : OtelSpan) (S : SentrySpan)
    (next : Handler SentrySpan RequestData ResponseWriter World) :
  currentSpanKey (Request_Context r) = Some otel →
  IsRecording otel = true →
  sentrySpanMap σ !! SpanContext_SpanID otel = Some S →
  ContinueFromOtel next w r σ
    = next w (WithContext r (SpanToContext (Request_Context r) S)) σ.
Proof.
  intros Hotel Hrec Hreg.
  unfold ContinueFromOtel, SpanFromContext, SentrySpanMap_Get.
  by rewrite Hotel, Hrec, Hreg.
Qed.

Lemma ContinueFromOtel_unchanged (w : ResponseWriter)
    (r : Request SentrySpan RequestData) (σ : State SentrySpan World)
    (next : Handler SentrySpan RequestData ResponseWriter World) :
  (∀ otel, currentSpanKey (Request_Context r) = Some otel →
           IsRecording otel = false
           ∨ sentrySpanMap σ !! SpanContext_SpanID otel = None) →
  ContinueFromOtel next w r σ = next w r σ.
Proof.
  intros Hpass. unfold ContinueFromOtel, SpanFromContext, SentrySpanMap_Get.
  destruct (currentSpanKey (Request_Context r)) as [otel|]; [|done].
  destruct (Hpass otel eq_refl) as [-> | Hnone]; [done|].
  rewrite Hnone. by destruct (IsRecording otel).
Qed.
End Middleware_facts.

(** Claim C3. Whatever the downstream handler: when the request's context
    carries an otel span that is recording and whose identifier the
    registry maps to the sentry span [S], [ContinueFromOtel] serves the
    handler with the request whose context has [S] as its active sentry
    span and is otherwise the same; when the otel span is not recording, or
    its identifier is not in the registry, or the context carries no otel
    span, the handler is served with the request as it came. *)
Theorem ContinueFromOtel_substitutes
    {SentrySpan RequestData ResponseWriter World : Type}
    (w : ResponseWriter) (r : sentryotel.Request SentrySpan RequestData)
    (σ : sentryotel.State SentrySpan World) :
  (∀ otel S,
     sentryotel.currentSpanKey (sentryotel.Request_Context r) = Some otel →
     sentryotel.IsRecording otel = true →
     sentryotel.sentrySpanMap σ !! sentryotel.SpanContext_SpanID otel
       = Some S →
     ∃ r',
       (∀ next : sentryotel.Handler SentrySpan RequestData ResponseWriter
                   World,
          sentryotel.ContinueFromOtel next w r σ = next w r' σ)
       ∧ sentryotel.ActiveSentrySpan (sentryotel.Request_Context r')
           = Some S
       ∧ sentryotel.currentSpanKey (sentryotel.Request_Context r')
           = Some otel
       ∧ sentryotel.Request_Data r' = sentryotel.Request_Data r)
  ∧ ((∀ otel,
        sentryotel.currentSpanKey (sentryotel.Request_Context r)
          = Some otel →
        sentryotel.IsRecording otel = false
        ∨ sentryotel.sentrySpanMap σ !! sentryotel.SpanContext_SpanID otel
            = None) →
     ∀ next : sentryotel.Handler SentrySpan RequestData ResponseWriter World,
       sentryotel.ContinueFromOtel next w r σ = next w r σ).
Proof.
  split.
  - intros otel S Hotel Hrec Hreg.
    exists (sentryotel.WithContext r
              (sentryotel.SpanToContext (sentryotel.Request_Context r) S)).
    split; [|by rewrite <-Hotel].
    intros next. by apply ContinueFromOtel_registered with otel.
  - intros Hpass next. by apply ContinueFromOtel_unchanged.
Qed.

Lemma ContinueFromOtel_substitutes_registered :
  ∃ r',
    sentryotel.world
      (sentryotel.ContinueFromOtel examples.keep_request tt
         examples.request_otel examples.state_registered) = [r']
    ∧ sentryotel.ActiveSentrySpan (sentryotel.Request_Context r')
        = Some "tx".
Proof.
  destruct (proj1 (ContinueFromOtel_substitutes tt examples.request_otel
                     examples.state_registered)
              examples.otel_recording "tx" eq_refl eq_refl eq_refl)
    as (r' & Hserved & Hactive & _).
  exists r'. split; [|exact Hactive].
  by rewrite (Hserved examples.keep_request).
Defined.

(** ** The scenario of the specification *)

Example scenario_entries :
  DynamicSamplingContextFromTransaction examples.source_url
    examples.hub_no_client examples.span_scenario
  = {| Entries :=
         list_to_map
           [("trace_id", "4c79f60c11214eb38604f4ae0781bfb2");
            ("sample_rate", "1"); ("public_key", "abc");
            ("release", "1.2.3"); ("environment", "testing");
            ("transaction", "GET /"); ("sampled", "true")];
       Frozen := true |}.
Proof. vm_compute. reflexivity. Qed.

Example scenario_header :
  @DynamicSamplingContext_String spec_codec
    (DynamicSamplingContextFromTransaction examples.source_url
       examples.hub_no_client examples.span_scenario)
  = "sentry-sample_rate=1, sentry-sampled=true, sentry-environment=testing, sentry-release=1.2.3, sentry-trace_id=4c79f60c11214eb38604f4ae0781bfb2, sentry-transaction=GET%20%2F, sentry-public_key=abc".
Proof. vm_compute. reflexivity. Qed.

Example foreign_header_not_frozen :
  @DynamicSamplingContextFromHeader spec_codec examples.header_foreign
    = ({| Entries := ∅; Frozen := false |}, None).
Proof. vm_compute. reflexivity. Qed.

Lemma range_of_map_to_list (d : DynamicSamplingContext) :
  range_of (Entries d) (map_to_list (Entries d)).
Proof. unfold range_of. reflexivity. Qed.

(** ** More on [DynamicSamplingContextFromHeader] *)

Section FromHeader_more.
Context `{BaggageAPI}.

Lemma store_member_foreign (entries : gmap string string) (m : Member) :
  sentry_member m = false → store_member entries m = entries.
Proof. unfold sentry_member, store_member. by intros ->. Qed.

(** The loop reads the sentry members only. *)
Lemma fold_store_filter (ms : list Member) (entries : gmap string string) :
  fold_left store_member ms entries
    = fold_left store_member (filter (λ m, sentry_member m = true) ms)
        entries.
Proof.
  revert entries. induction ms as [|m ms IH]; intros entries; [done|].
  rewrite filter_cons. destruct (decide (sentry_member m = true)) as [Hm|Hm].
  - cbn [fold_left]. apply IH.
  - cbn [fold_left]. rewrite store_member_foreign by by destruct (sentry_member m).
    apply IH.
Qed.

Lemma size_store_member (entries : gmap string string) (m : Member) :
  size (store_member entries m) ≤ S (size entries).
Proof.
  unfold store_member. cbv zeta.
  destruct (strings.HasPrefix _ _); [|by apply Nat.le_succ_diag_r].
  rewrite map_size_insert. destruct (entries !! _); simpl; lia.
Qed.

Lemma size_fold_store (ms : list Member) (entries : gmap string string) :
  size (fold_left store_member ms entries) ≤ length ms + size entries.
Proof.
  revert entries. induction ms as [|m ms IH]; intros entries; [done|].
  cbn [fold_left length]. etransitivity; [apply IH|].
  pose proof (size_store_member entries m). lia.
Qed.

Lemma sentry_member_prefixed (m : Member) (k : string) :
  Key m = sentryPrefix +:+ k → sentry_member m = true.
Proof. intros Hk. unfold sentry_member. rewrite Hk. apply HasPrefix_app. Qed.

(** Members of one list with one key, when the keys of the list have no
    duplicates, are one member. *)
Lemma NoDup_Key_inj (ms : list Member) (m m' : Member) :
  NoDup (Key <$> ms) → m ∈ ms → m' ∈ ms → Key m = Key m' → m = m'.
Proof.
  induction ms as [|m0 ms IH]; [by intros _ ?%elem_of_nil|].
  rewrite fmap_cons, NoDup_cons. intros [Hnotin Hnodup] Hm Hm' Hkey.
  apply elem_of_cons in Hm as [->|Hm]; apply elem_of_cons in Hm' as [->|Hm'];
    [done| | |by apply IH].
  - destruct Hnotin. rewrite Hkey. by apply list_elem_of_fmap_2.
  - destruct Hnotin. rewrite <-Hkey. by apply list_elem_of_fmap_2.
Qed.

(** With no sentry key twice in the document, the entries are the sentry
    members, key by key. *)
Lemma fold_store_lookup_unique (ms : list Member) (k v : string) :
  NoDup (sentry_keys ms) →
  fold_left store_member ms ∅ !! k = Some v
  ↔ (sentryPrefix +:+ k, v) ∈ key_value <$> ms.
Proof.
  intros Hnodup. split.
  - intros [Hv|(m & Hin & Hk & Hv)]%fold_store_lookup_Some;
      [by rewrite lookup_empty in Hv|].
    apply list_elem_of_fmap. exists m. unfold key_value. by rewrite Hk, Hv.
  - intros (m & Heq & Hin)%list_elem_of_fmap.
    apply pair_equal_spec in Heq as [Hk Hv]. symmetry in Hk.
    destruct (fold_store_lookup_is_Some ms ∅ m k Hin Hk) as [v' Hv'].
    rewrite Hv'. f_equal.
    apply fold_store_lookup_Some in Hv' as [Hv'|(m' & Hin' & Hk' & <-)];
      [by rewrite lookup_empty in Hv'|].
    assert (m' = m) as ->; [|done].
    apply (NoDup_Key_inj (filter (λ m, sentry_member m = true) ms));
      [done| | |congruence];
      apply list_elem_of_filter; eauto using sentry_member_prefixed.
Qed.

Lemma sentry_keys_key_value (ms : list Member) :
  sentry_keys ms
    = filter (λ k, strings.HasPrefix k sentryPrefix = true)
        ((key_value <$> ms).*1).
Proof.
  unfold sentry_keys. induction ms as [|m ms IH]; [done|].
  rewrite !fmap_cons, !filter_cons. cbn [fst key_value].
  unfold sentry_member at 1.
  destruct (decide (strings.HasPrefix (Key m) sentryPrefix = true));
    by rewrite ?fmap_cons, IH.
Qed.
End FromHeader_more.

(** X1. Whatever the header, the context [DynamicSamplingContextFromHeader]
    returns is frozen exactly when it has entries; the error returned is the
    parser's, and with an error the context has no entry. *)
Theorem FromHeader_frozen_has_entries `{BaggageAPI}
    (header : list Byte.byte) :
  IsFrozen (DynamicSamplingContextFromHeader header).1
    = HasEntries (DynamicSamplingContextFromHeader header).1
  ∧ (DynamicSamplingContextFromHeader header).2
      = match Parse (string_of_list_byte header) with
        | inl _ => None
        | inr err => Some err
        end
  ∧ ((DynamicSamplingContextFromHeader header).2 ≠ None →
     Entries (DynamicSamplingContextFromHeader header).1 = ∅).
Proof.
  unfold DynamicSamplingContextFromHeader, IsFrozen, HasEntries.
  destruct (Parse (string_of_list_byte header)); cbn; [|done].
  split; [done|]. split; [done|]. by intros [].
Qed.

(** X2. For a header that parses, the keys of the entries are exactly the
    keys of the sentry members without the prefix: every such member leaves
    an entry, and there are no more entries than sentry members. *)
Theorem FromHeader_keys `{BaggageAPI} (header : list Byte.byte)
    (bag : Baggage) :
  Parse (string_of_list_byte header) = inl bag →
  (∀ k, is_Some (Entries (DynamicSamplingContextFromHeader header).1 !! k)
        ↔ ∃ m, m ∈ Members bag ∧ Key m = sentryPrefix +:+ k)
  ∧ size (Entries (DynamicSamplingContextFromHeader header).1)
      ≤ length (sentry_keys (Members bag)).
Proof.
  intros Hparse. rewrite (FromHeader_parsed _ _ Hparse). cbn [fst Entries].
  split.
  - intros k. split.
    + intros [v [Hv|(m & ? & ? & _)]%fold_store_lookup_Some];
        [by rewrite lookup_empty in Hv|]. by exists m.
    + intros (m & Hin & Hk). by eapply fold_store_lookup_is_Some.
  - rewrite fold_store_filter. unfold sentry_keys. rewrite length_fmap.
    etransitivity; [apply size_fold_store|]. rewrite map_size_empty. lia.
Qed.

Lemma FromHeader_keys_a_b :
  (∀ k, is_Some (Entries (@DynamicSamplingContextFromHeader spec_codec
                            cases.header_a_b).1 !! k)
        ↔ ∃ m, m ∈ cases.bag_a_b ∧ baggage.Key m = sentryPrefix +:+ k)
  ∧ size (Entries (@DynamicSamplingContextFromHeader spec_codec
                     cases.header_a_b).1) ≤ 2.
Proof.
  exact (@FromHeader_keys spec_codec cases.header_a_b cases.bag_a_b eq_refl).
Defined.

(** X3. Two headers that parse and have the same sentry members, in the
    same order, give the same context: the members of other namespaces on
    the header make no difference. *)
Theorem FromHeader_ignores_foreign `{BaggageAPI}
    (header1 header2 : list Byte.byte) (bag1 bag2 : Baggage) :
  Parse (string_of_list_byte header1) = inl bag1 →
  Parse (string_of_list_byte header2) = inl bag2 →
  filter (λ m, sentry_member m = true) (Members bag1)
    = filter (λ m, sentry_member m = true) (Members bag2) →
  DynamicSamplingContextFromHeader header1
    = DynamicSamplingContextFromHeader header2.
Proof.
  intros Hparse1 Hparse2 Hsame.
  rewrite (FromHeader_parsed _ _ Hparse1), (FromHeader_parsed _ _ Hparse2).
  by rewrite (fold_store_filter (Members bag1)),
    (fold_store_filter (Members bag2)), Hsame.
Qed.

Lemma FromHeader_ignores_foreign_dup :
  @DynamicSamplingContextFromHeader spec_codec examples.header_dup
    = @DynamicSamplingContextFromHeader spec_codec cases.header_dup'.
Proof.
  exact (@FromHeader_ignores_foreign spec_codec examples.header_dup
           cases.header_dup' examples.bag_dup cases.bag_dup'
           eq_refl eq_refl eq_refl).
Defined.

(** X4. Two headers that parse into the same keys and values in different
    orders give the same context, provided no sentry key occurs twice: the
    result does not depend on the order of the members. *)
Theorem FromHeader_order_independent `{BaggageAPI}
    (header1 header2 : list Byte.byte) (bag1 bag2 : Baggage) :
  Parse (string_of_list_byte header1) = inl bag1 →
  Parse (string_of_list_byte header2) = inl bag2 →
  key_value <$> Members bag1 ≡ₚ key_value <$> Members bag2 →
  NoDup (sentry_keys (Members bag1)) →
  DynamicSamplingContextFromHeader header1
    = DynamicSamplingContextFromHeader header2.
Proof.
  intros Hparse1 Hparse2 Hperm Hnodup1.
  assert (NoDup (sentry_keys (Members bag2))) as Hnodup2.
  { rewrite sentry_keys_key_value in Hnodup1 |- *. by rewrite <-Hperm. }
  rewrite (FromHeader_parsed _ _ Hparse1), (FromHeader_parsed _ _ Hparse2).
  assert (fold_left store_member (Members bag1) ∅
            = fold_left store_member (Members bag2) ∅) as ->; [|done].
  apply map_eq. intros k. apply option_eq. intros v.
  rewrite !fold_store_lookup_unique by done. by rewrite Hperm.
Qed.

Lemma FromHeader_order_independent_a_b :
  @DynamicSamplingContextFromHeader spec_codec cases.header_a_b
    = @DynamicSamplingContextFromHeader spec_codec cases.header_b_a.
Proof.
  apply (@FromHeader_order_independent spec_codec cases.header_a_b
           cases.header_b_a cases.bag_a_b cases.bag_b_a eq_refl eq_refl).
  - symmetry. apply (Permutation_cons_append [_; _]).
  - by apply (bool_decide_unpack _).
Defined.

(** ** More on the constructors *)

Section Constructors_more.
Variable SourceURL : TransactionSource.
Variable currentHub : Hub.

Lemma client_entries_lookup (client : Client) (entries : gmap string string)
    (k : string) :
  client_entries client entries !! k =
    if decide (k = "environment")
    then from_option Some (entries !! k)
           (non_empty (Environment (options client)))
    else if decide (k = "release")
    then from_option Some (entries !! k)
           (non_empty (Release (options client)))
    else if decide (k = "public_key")
    then from_option Some (entries !! k)
           (dsn client ≫= λ dsn, non_empty (publicKey dsn))
    else entries !! k.
Proof.
  unfold client_entries, non_empty.
  destruct (dsn client) as [d|]; cbn;
    repeat (case_decide; subst; try done);
    repeat (rewrite lookup_insert_eq || rewrite lookup_insert_ne by done);
    done.
Qed.

Lemma FromScope_lookup (scope : Scope) (client : Client) (k : string) :
  Entries (DynamicSamplingContextFromScope (Some scope) (Some client)) !! k
    = scope_entry (PropagationContext_TraceID (propagationContext scope))
        (TracesSampleRate (options client)) client k.
Proof.
  unfold DynamicSamplingContextFromScope, scope_entry. cbn [Entries].
  rewrite client_entries_lookup. unfold non_empty.
  destruct (dsn client) as [d|]; cbn;
    repeat (case_decide; subst; try done);
    repeat case_match;
    repeat (rewrite lookup_insert_eq || rewrite lookup_insert_ne by done);
    rewrite ?lookup_empty; done.
Qed.

Lemma FromTransaction_lookup (span : Span) (client : Client) (scope : Scope)
    (k : string) :
  Hub_Client (hubFromContext currentHub (ctx span)) = Some client →
  Hub_Scope (hubFromContext currentHub (ctx span)) = Some scope →
  Entries (DynamicSamplingContextFromTransaction SourceURL currentHub span)
    !! k
    = transaction_entry SourceURL span client k.
Proof.
  intros Hclient Hscope.
  unfold DynamicSamplingContextFromTransaction, transaction_entry.
  rewrite Hclient, Hscope. cbn [Entries].
  destruct (decide (k = "sampled")) as [->|Hsampled];
    [by rewrite lookup_insert_eq|].
  rewrite lookup_insert_ne by done.
  assert (∀ entries : gmap string string,
            entries !! k
              = scope_entry (Span_TraceID span) (sampleRate span) client k →
            k ≠ "transaction" →
            (if decide (Source span ≠ "" ∧ Source span ≠ SourceURL)
             then if isTransaction span
                  then <["transaction":=Name span]> entries
                  else entries
             else entries) !! k
            = scope_entry (Span_TraceID span) (sampleRate span) client k)
    as Hother.
  { intros entries Hentries Hk. destruct (decide _); [|done].
    destruct (isTransaction span); [|done]. by rewrite lookup_insert_ne. }
  assert (∀ k', (client_entries client
             (if float64_neq0 (sampleRate span)
              then <["sample_rate" :=
                       strconv.FormatFloat_f_shortest_64 (sampleRate span)]>
                     (if decide (TraceID_String (Span_TraceID span) ≠ "")
                      then <["trace_id" :=
                               TraceID_String (Span_TraceID span)]> ∅
                      else ∅)
              else if decide (TraceID_String (Span_TraceID span) ≠ "")
                   then <["trace_id" := TraceID_String (Span_TraceID span)]> ∅
                   else ∅)) !! k'
            = scope_entry (Span_TraceID span) (sampleRate span) client k')
    as Hbase.
  { intros k'. rewrite client_entries_lookup. unfold scope_entry, non_empty.
    destruct (dsn client) as [d|]; cbn;
      repeat (case_decide; subst; try done);
      repeat case_match;
      repeat (rewrite lookup_insert_eq || rewrite lookup_insert_ne by done);
      rewrite ?lookup_empty; done. }
  destruct (decide (k = "transaction")) as [->|Htx].
  - destruct (decide (Source span ≠ "" ∧ Source span ≠ SourceURL));
      [|by rewrite Hbase].
    destruct (isTransaction span); [by rewrite lookup_insert_eq|].
    by rewrite Hbase.
  - apply Hother; [|done]. rewrite <-Hbase.
    by destruct (float64_neq0 (sampleRate span)).
Qed.

Lemma transaction_entry_transaction (span : Span) (client : Client) :
  transaction_entry SourceURL span client "transaction"
    = if decide (Source span ≠ "" ∧ Source span ≠ SourceURL)
      then if isTransaction span then Some (Name span) else None
      else None.
Proof. reflexivity. Qed.

Lemma scope_entry_keys (traceID : TraceID) (rate : float64) (client : Client)
    (k : string) :
  is_Some (scope_entry traceID rate client k) → k ∈ scope_keys.
Proof.
  unfold scope_entry, scope_keys.
  repeat (case_decide; [subst; rewrite !elem_of_cons; tauto|]).
  by intros [].
Qed.

Lemma transaction_entry_keys (span : Span) (client : Client) (k : string) :
  is_Some (transaction_entry SourceURL span client k) →
  k ∈ transaction_keys.
Proof.
  unfold transaction_entry, transaction_keys. rewrite elem_of_app.
  repeat (case_decide; [subst; rewrite !elem_of_cons; tauto|]).
  intros Hk%scope_entry_keys. by left.
Qed.

(** The context built from a transaction is frozen exactly when it has
    entries, and its keys are among the seven. *)
Lemma FromTransaction_frozen_keys (span : Span) :
  Frozen (DynamicSamplingContextFromTransaction SourceURL currentHub span)
    = bool_decide
        (0 < size (Entries (DynamicSamplingContextFromTransaction SourceURL
                              currentHub span)))
  ∧ ∀ k, is_Some (Entries (DynamicSamplingContextFromTransaction SourceURL
                             currentHub span) !! k) →
         k ∈ transaction_keys.
Proof.
  destruct (Hub_Client (hubFromContext currentHub (ctx span)))
    as [client|] eqn:Hclient;
    [destruct (Hub_Scope (hubFromContext currentHub (ctx span)))
       as [scope|] eqn:Hscope|].
  - assert (is_Some (Entries (DynamicSamplingContextFromTransaction
                                SourceURL currentHub span) !! "sampled"))
      as Hsampled.
    { by rewrite (FromTransaction_lookup _ client scope). }
    apply map_size_ne_0_lookup_2 in Hsampled.
    assert (Frozen (DynamicSamplingContextFromTransaction SourceURL
                      currentHub span) = true) as ->.
    { unfold DynamicSamplingContextFromTransaction.
      by rewrite Hclient, Hscope. }
    split; [symmetry; apply bool_decide_eq_true; lia|].
    intros k. rewrite (FromTransaction_lookup _ client scope) by done.
    apply transaction_entry_keys.
  - unfold DynamicSamplingContextFromTransaction. rewrite Hclient, Hscope.
    cbn [Frozen Entries]. split; [done|].
    intros k. rewrite lookup_empty. by intros [].
  - unfold DynamicSamplingContextFromTransaction. rewrite Hclient.
    cbn [Frozen Entries]. split; [done|].
    intros k. rewrite lookup_empty. by intros [].
Qed.
End Constructors_more.

(** A map with keys among those of a list has no more entries than the
    list has elements. *)
Lemma size_keys_among (m : gmap string string) (keys : list string) :
  (∀ k, is_Some (m !! k) → k ∈ keys) → size m ≤ length keys.
Proof.
  intros Hkeys. rewrite <-size_dom.
  transitivity (size (list_to_set keys : gset string)).
  - apply subseteq_size. intros k Hk%elem_of_dom.
    apply elem_of_list_to_set. by apply Hkeys.
  - clear. induction keys as [|k keys IH]; [done|].
    cbn [list_to_set length]. rewrite size_union_alt, size_singleton.
    pose proof (subseteq_size (list_to_set keys ∖ {[k]} : gset string)
                  (list_to_set keys)
                  (subseteq_difference_l _ _ _ (reflexivity _))). lia.
Qed.

Lemma hexdigit_lower (b : Byte.byte) :
  lowerhex_char (hex.hexdigit (Byte.to_N b / 16)) = true
  ∧ lowerhex_char (hex.hexdigit (Byte.to_N b mod 16)) = true.
Proof. destruct b; by vm_compute. Qed.

(** The text of [hex.EncodeToString] has two lower-case hexadecimal digits
    for each byte. *)
Lemma EncodeToString_shape (src : list Byte.byte) :
  String.length (hex.EncodeToString src) = 2 * length src
  ∧ all_chars lowerhex_char (hex.EncodeToString src) = true.
Proof.
  induction src as [|b src [IHlen IHchars]]; [done|].
  cbn [hex.EncodeToString String.length length all_chars].
  destruct (hexdigit_lower b) as [-> ->]. rewrite IHlen, IHchars.
  split; [lia|done].
Qed.

(** X5. For a span whose hub has a client and a scope, the ["transaction"]
    entry is the span's name exactly when the span's source is neither empty
    nor [SourceURL] and the span is a transaction; otherwise there is no
    such entry. In particular a span with an empty source does not hand on
    its name. *)
Theorem FromTransaction_transaction_exact (SourceURL : TransactionSource)
    (currentHub : Hub) (span : Span) (client : Client) (scope : Scope) :
  Hub_Client (hubFromContext currentHub (ctx span)) = Some client →
  Hub_Scope (hubFromContext currentHub (ctx span)) = Some scope →
  let d := DynamicSamplingContextFromTransaction SourceURL currentHub span in
  (Source span ≠ "" → Source span ≠ SourceURL → isTransaction span = true →
     Entries d !! "transaction" = Some (Name span))
  ∧ (Source span = "" → Entries d !! "transaction" = None)
  ∧ (isTransaction span = false → Entries d !! "transaction" = None).
Proof.
  intros Hclient Hscope d. subst d.
  rewrite (FromTransaction_lookup _ _ _ client scope) by done.
  rewrite transaction_entry_transaction.
  repeat split.
  - intros Hne Hurl ->. by rewrite decide_True.
  - intros Hempty. rewrite decide_False; [done|]. by intros [? _].
  - intros ->. by destruct (decide _).
Qed.

Lemma FromTransaction_transaction_exact_route :
  Entries (DynamicSamplingContextFromTransaction examples.source_url
             examples.hub_abc examples.span_route) !! "transaction"
    = Some "GET /users/:id".
Proof.
  apply (FromTransaction_transaction_exact examples.source_url
           examples.hub_abc examples.span_route examples.client_abc
           examples.scope_empty eq_refl eq_refl); [done..|reflexivity].
Defined.

(** X6. Both constructors write the client's configuration alike: the
    ["public_key"] entry is the public key of the client's DSN when there is
    a DSN and the key is not empty, the ["release"] and ["environment"]
    entries are the client's options when not empty, and there is no such
    entry otherwise. *)
Theorem constructors_client_entries (SourceURL : TransactionSource)
    (currentHub : Hub) (span : Span) (client : Client) (scope : Scope)
    (k : string) :
  Hub_Client (hubFromContext currentHub (ctx span)) = Some client →
  Hub_Scope (hubFromContext currentHub (ctx span)) = Some scope →
  k ∈ ["public_key"; "release"; "environment"] →
  let expected :=
    if decide (k = "public_key")
    then dsn client ≫= λ dsn, non_empty (publicKey dsn)
    else if decide (k = "release") then non_empty (Release (options client))
    else non_empty (Environment (options client)) in
  Entries (DynamicSamplingContextFromTransaction SourceURL currentHub span)
    !! k = expected
  ∧ Entries (DynamicSamplingContextFromScope (Some scope) (Some client))
      !! k = expected.
Proof.
  intros Hclient Hscope Hk expected. subst expected.
  rewrite (FromTransaction_lookup _ _ _ client scope), FromScope_lookup
    by done.
  unfold transaction_entry, scope_entry.
  rewrite !elem_of_cons, elem_of_nil in Hk.
  destruct Hk as [->|[->|[->|[]]]]; cbn; by destruct (dsn client).
Qed.

Lemma constructors_client_entries_abc :
  Entries (DynamicSamplingContextFromTransaction examples.source_url
             examples.hub_abc examples.span_route) !! "public_key"
    = Some "abc"
  ∧ Entries (DynamicSamplingContextFromScope (Some examples.scope_empty)
               (Some examples.client_abc)) !! "public_key" = Some "abc".
Proof.
  apply (constructors_client_entries examples.source_url examples.hub_abc
           examples.span_route examples.client_abc examples.scope_empty
           "public_key" eq_refl eq_refl).
  by apply (bool_decide_unpack _).
Defined.

(** X7. The context [DynamicSamplingContextFromTransaction] builds is frozen
    exactly when it has entries, and that is exactly when the span's hub has
    a client and a scope; its keys are among the seven the constructor
    knows, so it has at most seven entries. *)
Theorem FromTransaction_shape (SourceURL : TransactionSource)
    (currentHub : Hub) (span : Span) :
  let d := DynamicSamplingContextFromTransaction SourceURL currentHub span in
  IsFrozen d = HasEntries d
  ∧ (IsFrozen d = true
     ↔ is_Some (Hub_Client (hubFromContext currentHub (ctx span)))
       ∧ is_Some (Hub_Scope (hubFromContext currentHub (ctx span))))
  ∧ (∀ k, is_Some (Entries d !! k) → k ∈ transaction_keys)
  ∧ size (Entries d) ≤ 7.
Proof.
  intros d. subst d.
  destruct (FromTransaction_frozen_keys SourceURL currentHub span)
    as [Hfrozen Hkeys].
  unfold IsFrozen, HasEntries.
  split; [done|]. split; [|split; [done|by apply (size_keys_among _ _ Hkeys)]].
  unfold DynamicSamplingContextFromTransaction.
  destruct (Hub_Client _), (Hub_Scope _); cbn [Frozen].
  - by split; eauto.
  - split; [done|by intros [_ []]].
  - split; [done|by intros [[] _]].
  - split; [done|by intros [[] _]].
Qed.

(** X8. With a client and a scope, [DynamicSamplingContextFromScope] returns
    a frozen context whose keys are among ["trace_id"], ["sample_rate"],
    ["public_key"], ["release"] and ["environment"]: it never writes
    ["transaction"] or ["sampled"]. The ["sample_rate"] entry is the
    client's [TracesSampleRate] formatted, and is left out when that rate
    equals zero; with a trace identifier of at least one byte the context
    has entries. *)
Theorem FromScope_shape (scope : Scope) (client : Client) :
  let d := DynamicSamplingContextFromScope (Some scope) (Some client) in
  let rate := TracesSampleRate (options client) in
  IsFrozen d = true
  ∧ (∀ k, is_Some (Entries d !! k) → k ∈ scope_keys)
  ∧ Entries d !! "transaction" = None
  ∧ Entries d !! "sampled" = None
  ∧ Entries d !! "sample_rate"
      = (if SFeqb rate float64_zero then None
         else Some (strconv.FormatFloat_f_shortest_64 rate))
  ∧ (PropagationContext_TraceID (propagationContext scope) ≠ [] →
     HasEntries d = true).
Proof.
  intros d rate. subst d rate.
  split; [done|]. split; [|split; [|split; [|split]]].
  - intros k. rewrite FromScope_lookup. apply scope_entry_keys.
  - by rewrite FromScope_lookup.
  - by rewrite FromScope_lookup.
  - rewrite FromScope_lookup. unfold scope_entry, float64_neq0. cbn.
    by destruct (SFeqb _ _).
  - intros Hid. unfold HasEntries. apply bool_decide_eq_true.
    apply Nat.neq_0_lt_0, (map_size_ne_0_lookup_2 _ "trace_id").
    rewrite FromScope_lookup. unfold scope_entry, non_empty. cbn.
    destruct (PropagationContext_TraceID (propagationContext scope))
      as [|b id]; [done|]. by rewrite decide_True.
Qed.

(** X9. When the span's trace identifier is that of the scope and its
    sample rate is the client's [TracesSampleRate],
    [DynamicSamplingContextFromTransaction] writes what
    [DynamicSamplingContextFromScope] writes for the span's client and
    scope, and besides only ["transaction"] and ["sampled"]. *)
Theorem FromTransaction_extends_FromScope (SourceURL : TransactionSource)
    (currentHub : Hub) (span : Span) (client : Client) (scope : Scope)
    (k : string) :
  Hub_Client (hubFromContext currentHub (ctx span)) = Some client →
  Hub_Scope (hubFromContext currentHub (ctx span)) = Some scope →
  Span_TraceID span = PropagationContext_TraceID (propagationContext scope) →
  sampleRate span = TracesSampleRate (options client) →
  k ≠ "transaction" → k ≠ "sampled" →
  Entries (DynamicSamplingContextFromTransaction SourceURL currentHub span)
    !! k
    = Entries (DynamicSamplingContextFromScope (Some scope) (Some client))
        !! k.
Proof.
  intros Hclient Hscope Hid Hrate Htx Hsampled.
  rewrite (FromTransaction_lookup _ _ _ client scope), FromScope_lookup
    by done.
  unfold transaction_entry. rewrite !decide_False by done.
  by rewrite Hid, Hrate.
Qed.

Lemma FromTransaction_extends_FromScope_rate :
  Entries (DynamicSamplingContextFromTransaction examples.source_url
             examples.hub_abc cases.span_like_scope) !! "sample_rate"
    = Entries (DynamicSamplingContextFromScope (Some examples.scope_empty)
                 (Some examples.client_abc)) !! "sample_rate".
Proof.
  by apply (FromTransaction_extends_FromScope examples.source_url
              examples.hub_abc cases.span_like_scope examples.client_abc
              examples.scope_empty "sample_rate" eq_refl eq_refl eq_refl
              eq_refl).
Defined.

(** X10. For a span whose hub has a client and a scope, the ["trace_id"]
    entry is the span's trace identifier in hexadecimal: two lower-case
    hexadecimal digits for each byte. It is there whenever the identifier
    has a byte. *)
Theorem FromTransaction_trace_id (SourceURL : TransactionSource)
    (currentHub : Hub) (span : Span) (client : Client) (scope : Scope) :
  Hub_Client (hubFromContext currentHub (ctx span)) = Some client →
  Hub_Scope (hubFromContext currentHub (ctx span)) = Some scope →
  Span_TraceID span ≠ [] →
  ∃ v,
    Entries (DynamicSamplingContextFromTransaction SourceURL currentHub span)
      !! "trace_id" = Some v
    ∧ v = hex.EncodeToString (Span_TraceID span)
    ∧ String.length v = 2 * length (Span_TraceID span)
    ∧ all_chars lowerhex_char v = true.
Proof.
  intros Hclient Hscope Hid.
  exists (hex.EncodeToString (Span_TraceID span)).
  destruct (EncodeToString_shape (Span_TraceID span)) as [Hlen Hchars].
  split; [|done].
  rewrite (FromTransaction_lookup _ _ _ client scope) by done.
  change (transaction_entry SourceURL span client "trace_id")
    with (non_empty (hex.EncodeToString (Span_TraceID span))).
  unfold non_empty. rewrite decide_True; [done|].
  by destruct (Span_TraceID span).
Qed.

Lemma FromTransaction_trace_id_scenario :
  ∃ v,
    Entries (DynamicSamplingContextFromTransaction examples.source_url
               examples.hub_abc examples.span_scenario) !! "trace_id"
      = Some v
    ∧ v = "4c79f60c11214eb38604f4ae0781bfb2"
    ∧ String.length v = 32
    ∧ all_chars lowerhex_char v = true.
Proof.
  by apply (FromTransaction_trace_id examples.source_url examples.hub_abc
              examples.span_scenario examples.client_abc
              examples.scope_empty eq_refl eq_refl).
Defined.

(** ** More on writing a header and reading it back *)

Section Roundtrip_more.
Context `{BaggageAPI}.
Hypothesis codec_ok : codec_reads_back.

(** The surviving members carry the prefixed keys and the values of the
    entries a member can be built for, in the order visited. *)
Lemma surviving_members_filter (visited : list (string * string)) :
  key_value <$> surviving_members visited
    = prefixed <$> filter (λ e, is_Some (encodable_member e)) visited
  ∧ Forall (λ m, ∃ k v, NewMember k v = inl m) (surviving_members visited).
Proof.
  destruct codec_ok as [Hkv _].
  induction visited as [|e visited [IHkv IHall]]; [by split|].
  unfold surviving_members. simpl. rewrite filter_cons.
  destruct (decide (is_Some (encodable_member e))) as [[m Hm]|Hnone].
  - rewrite Hm. unfold encodable_member in Hm.
    destruct (NewMember (sentryPrefix +:+ e.1) e.2) as [m'|] eqn:Hnew;
      [|done].
    injection Hm as ->. split.
    + rewrite !fmap_cons. f_equal; [by apply Hkv | exact IHkv].
    + constructor; [by eauto | exact IHall].
  - destruct (encodable_member e) eqn:He; [by destruct Hnone|]. by split.
Qed.

(** Reading members with the prefixed keys of a sequence of entries that
    lists the map [m] stores [m]. *)
Lemma fold_store_listing (ms : list Member) (m : gmap string string)
    (listing : list (string * string)) :
  (∀ k v, (k, v) ∈ listing ↔ m !! k = Some v) →
  key_value <$> ms = prefixed <$> listing →
  fold_left store_member ms ∅ = m.
Proof.
  intros Hlisting Hkv.
  assert (∀ k v, (∃ mb, mb ∈ ms ∧ Key mb = sentryPrefix +:+ k ∧ Value mb = v)
                 ↔ m !! k = Some v) as Hmem.
  { intros k v. rewrite <-Hlisting. split.
    - intros (mb & Hin & Hk & Hv).
      assert (key_value mb ∈ prefixed <$> listing) as Hin'.
      { rewrite <-Hkv. by apply list_elem_of_fmap_2. }
      apply list_elem_of_fmap in Hin' as ([k' v'] & Heq & Hin').
      unfold key_value, prefixed in Heq. rewrite Hk, Hv in Heq.
      apply pair_equal_spec in Heq as [Hk' ->].
      by apply (inj (String.app sentryPrefix)) in Hk' as ->.
    - intros Hin.
      assert (prefixed (k, v) ∈ key_value <$> ms) as Hin'.
      { rewrite Hkv. by apply list_elem_of_fmap_2. }
      apply list_elem_of_fmap in Hin' as (mb & Heq & Hin').
      exists mb. unfold key_value, prefixed in Heq.
      by apply pair_equal_spec in Heq as [<- <-]. }
  apply map_eq. intros k.
  destruct (m !! k) as [v|] eqn:Hd.
  - apply Hmem in Hd as Hm. destruct Hm as (mb & Hin & Hk & Hv).
    destruct (fold_store_lookup_is_Some ms ∅ mb k Hin Hk) as [v' Hv'].
    rewrite Hv'. f_equal.
    apply fold_store_lookup_Some in Hv' as [Hv'|Hm'];
      [by rewrite lookup_empty in Hv'|].
    apply Hmem in Hm'. congruence.
  - destruct (fold_left store_member ms ∅ !! k) as [v|] eqn:Hf; [|done].
    apply fold_store_lookup_Some in Hf as [Hf|Hm];
      [by rewrite lookup_empty in Hf|].
    apply Hmem in Hm. congruence.
Qed.

Lemma filter_listing (m : gmap string string)
    (visited : list (string * string)) (k v : string) :
  range_of m visited →
  (k, v) ∈ filter (λ e, is_Some (encodable_member e)) visited
  ↔ filter (λ e, is_Some (encodable_member e)) m !! k = Some v.
Proof.
  intros Hrange. rewrite list_elem_of_filter, map_lookup_filter_Some.
  unfold range_of in Hrange. rewrite Hrange, elem_of_map_to_list. tauto.
Qed.

(** What is read back from the header of a run, when the codec parses the
    empty header into no member. *)
Lemma read_back_of_codec (m : gmap string string)
    (visited : list (string * string)) (empty : Baggage) :
  Parse "" = inl empty → Members empty = [] →
  range_of m visited →
  DynamicSamplingContextFromHeader
    (list_byte_of_string (String_visiting visited))
  = match New (surviving_members visited) with
    | inl _ =>
        ({| Entries := filter (λ e, is_Some (encodable_member e)) m;
            Frozen :=
              bool_decide
                (0 < size (filter (λ e, is_Some (encodable_member e)) m))
         |}, None)
    | inr _ => ({| Entries := ∅; Frozen := false |}, None)
    end.
Proof.
  intros Hempty Hnone Hrange.
  destruct (surviving_members_filter visited) as [Hkv Hbuilt].
  assert (DynamicSamplingContextFromHeader (list_byte_of_string "")
            = ({| Entries := ∅; Frozen := false |}, None)) as Hblank.
  { by rewrite (FromHeader_parsed _ empty), Hnone. }
  rewrite String_visiting_spec. unfold serialize_spec.
  destruct (surviving_members visited) as [|mb ms] eqn:Hms.
  - rewrite Hblank.
    assert (filter (λ e, is_Some (encodable_member e)) m = ∅) as ->.
    { apply map_empty. intros k. apply eq_None_not_Some. intros [v Hv].
      apply (filter_listing m visited k v Hrange) in Hv.
      symmetry in Hkv. apply fmap_nil_inv in Hkv. rewrite Hkv in Hv.
      by apply elem_of_nil in Hv. }
    destruct (New []); [|done]. by do 2 f_equal.
  - destruct (New (mb :: ms)) as [document|] eqn:Hnew; [|exact Hblank].
    destruct codec_ok as [_ Hback].
    destruct (Hback (mb :: ms) document ltac:(done) Hbuilt Hnew)
      as (parsed & Hparse & Hparsed).
    rewrite (FromHeader_parsed _ parsed)
      by by rewrite string_of_list_byte_of_string.
    rewrite (fold_store_listing _
               (filter (λ e, is_Some (encodable_member e)) m)
               (filter (λ e, is_Some (encodable_member e)) visited));
      [done| |by rewrite Hparsed].
    intros k v. by apply filter_listing.
Qed.

(** The header of a run parses, into members that are the prefixed entries
    of the run a member can be built for, or into none. *)
Lemma written_header_parses (visited : list (string * string))
    (empty : Baggage) :
  Parse "" = inl empty → Members empty = [] →
  ∃ parsed,
    Parse (String_visiting visited) = inl parsed
    ∧ (key_value <$> Members parsed
         = prefixed <$> filter (λ e, is_Some (encodable_member e)) visited
       ∨ Members parsed = []).
Proof.
  intros Hempty Hnone.
  destruct (surviving_members_filter visited) as [Hkv Hbuilt].
  rewrite String_visiting_spec. unfold serialize_spec.
  destruct (surviving_members visited) as [|mb ms] eqn:Hms;
    [by exists empty; auto|].
  destruct (New (mb :: ms)) as [document|] eqn:Hnew;
    [|by exists empty; auto].
  destruct codec_ok as [_ Hback].
  destruct (Hback (mb :: ms) document ltac:(done) Hbuilt Hnew)
    as (parsed & Hparse & Hparsed).
  exists parsed. split; [done|]. left. by rewrite Hparsed.
Qed.
End Roundtrip_more.

(** *** With the codec of the specification *)

Lemma spec_encodable_iff (e : string * string) :
  is_Some (@encodable_member spec_codec e)
  ↔ all_chars baggage.key_char e.1 = true.
Proof.
  unfold encodable_member. cbn. unfold baggage.NewMember.
  rewrite decide_False by done. rewrite all_chars_app.
  change (all_chars baggage.key_char sentryPrefix) with true. cbn [andb].
  destruct (all_chars baggage.key_char e.1); split; (done || by intros []).
Qed.

Lemma transaction_keys_encodable (k : string) :
  k ∈ transaction_keys → all_chars baggage.key_char k = true.
Proof.
  revert k. apply Forall_forall. by apply (bool_decide_unpack _).
Qed.



(** X12. With the baggage codec of the specification, the context built
    from a transaction survives the wire: when the document can be built
    within the codec's ceilings, reading back the header [String] writes
    gives the same context, entries and frozen flag, and no error, in
    whatever order the entries are visited. *)
Theorem FromTransaction_over_the_wire (SourceURL : TransactionSource)
    (currentHub : Hub) (span : Span) (visited : list (string * string))
    (document : baggage.Baggage) :
  range_of
    (Entries (DynamicSamplingContextFromTransaction SourceURL currentHub
                span)) visited →
  baggage.New (@surviving_members spec_codec visited) = inl document →
  @DynamicSamplingContextFromHeader spec_codec
    (list_byte_of_string (@String_visiting spec_codec visited))
    = (DynamicSamplingContextFromTransaction SourceURL currentHub span, None).
Proof.
  intros Hrange Hnew.
  destruct (FromTransaction_frozen_keys SourceURL currentHub span)
    as [Hfrozen Hkeys].
  rewrite (read_back_of_codec spec_codec_reads_back _ visited [] eq_refl
             eq_refl Hrange).
  change (@New spec_codec) with baggage.New. rewrite Hnew.
  rewrite map_filter_id.
  - rewrite <-Hfrozen.
    by destruct (DynamicSamplingContextFromTransaction SourceURL currentHub
                   span).
  - intros k v Hk. apply spec_encodable_iff, transaction_keys_encodable.
    apply Hkeys. by eexists.
Qed.

Lemma FromTransaction_over_the_wire_scenario :
  @DynamicSamplingContextFromHeader spec_codec
    (list_byte_of_string
       (@DynamicSamplingContext_String spec_codec
          (DynamicSamplingContextFromTransaction examples.source_url
             examples.hub_no_client examples.span_scenario)))
    = (DynamicSamplingContextFromTransaction examples.source_url
         examples.hub_no_client examples.span_scenario, None).
Proof.
  apply (FromTransaction_over_the_wire examples.source_url
           examples.hub_no_client examples.span_scenario _
           (@surviving_members spec_codec
              (map_to_list
                 (Entries (DynamicSamplingContextFromTransaction
                             examples.source_url examples.hub_no_client
                             examples.span_scenario))))).
  - unfold range_of. reflexivity.
  - vm_compute. reflexivity.
Defined.

(** X15. With the baggage codec of the specification, [String] writes
    members of the sentry namespace only: the header it returns parses, and
    every member of the parsed document has a key that starts with
    ["sentry-"] and is the key and value of an entry visited. *)
Theorem String_writes_sentry_members_only
    (visited : list (string * string)) :
  ∃ parsed,
    baggage.Parse (@String_visiting spec_codec visited) = inl parsed
    ∧ ∀ m, m ∈ parsed →
        @sentry_member spec_codec m = true
        ∧ ∃ e, e ∈ visited
               ∧ baggage.Key m = sentryPrefix +:+ e.1
               ∧ baggage.Value m = e.2.
Proof.
  destruct (written_header_parses spec_codec_reads_back visited [] eq_refl
              eq_refl) as (parsed & Hparse & [Hkv|Hnone]).
  - exists parsed. split; [done|]. intros m Hm.
    assert (@key_value spec_codec m
              ∈ prefixed <$> filter (λ e, is_Some
                                            (@encodable_member spec_codec e))
                               visited) as Hin.
    { rewrite <-Hkv. by apply list_elem_of_fmap_2. }
    apply list_elem_of_fmap in Hin as (e & Heq & [_ He]%list_elem_of_filter).
    apply pair_equal_spec in Heq as [Hk Hv].
    split; [by apply (@sentry_member_prefixed spec_codec m e.1)|].
    by exists e.
  - exists parsed. split; [done|]. intros m Hm.
    change (m ∈ @Members spec_codec parsed) in Hm. rewrite Hnone in Hm.
    by apply elem_of_nil in Hm.
Qed.

(** ** More on the continuation middleware *)

(** X13. Wrapping a handler twice in [ContinueFromOtel] is the same as
    wrapping it once: the second look-up in the registry finds the span the
    first one has put on the context. *)
Theorem ContinueFromOtel_idempotent
    {SentrySpan RequestData ResponseWriter World : Type}
    (next : sentryotel.Handler SentrySpan RequestData ResponseWriter World)
    (w : ResponseWriter) (r : sentryotel.Request SentrySpan RequestData)
    (σ : sentryotel.State SentrySpan World) :
  sentryotel.ContinueFromOtel (sentryotel.ContinueFromOtel next) w r σ
    = sentryotel.ContinueFromOtel next w r σ.
Proof.
  unfold sentryotel.ContinueFromOtel at 1.
  unfold sentryotel.SpanFromContext, sentryotel.SentrySpanMap_Get.
  destruct (sentryotel.currentSpanKey (sentryotel.Request_Context r))
    as [otel|] eqn:Hotel; [|done].
  destruct (sentryotel.IsRecording otel) eqn:Hrec; [|done].
  destruct (sentryotel.sentrySpanMap σ !! sentryotel.SpanContext_SpanID otel)
    as [S|] eqn:Hreg; [|done].
  rewrite (ContinueFromOtel_registered w r σ otel S next Hotel Hrec Hreg).
  by rewrite (ContinueFromOtel_registered w _ σ otel S next).
Qed.

(** X14. [ContinueFromOtel] serves the downstream handler once, with the
    response writer and in the state it was given, and with a request that
    keeps its data and its otel span; the active sentry span of that
    request is the one the request came with, or the one the registry holds
    for the recording otel span of the request. *)
Theorem ContinueFromOtel_frame
    {SentrySpan RequestData ResponseWriter World : Type}
    (w : ResponseWriter) (r : sentryotel.Request SentrySpan RequestData)
    (σ : sentryotel.State SentrySpan World) :
  ∃ r',
    (∀ next : sentryotel.Handler SentrySpan RequestData ResponseWriter World,
       sentryotel.ContinueFromOtel next w r σ = next w r' σ)
    ∧ sentryotel.Request_Data r' = sentryotel.Request_Data r
    ∧ sentryotel.currentSpanKey (sentryotel.Request_Context r')
        = sentryotel.currentSpanKey (sentryotel.Request_Context r)
    ∧ (sentryotel.ActiveSentrySpan (sentryotel.Request_Context r')
         = sentryotel.ActiveSentrySpan (sentryotel.Request_Context r)
       ∨ ∃ otel,
           sentryotel.currentSpanKey (sentryotel.Request_Context r)
             = Some otel
           ∧ sentryotel.IsRecording otel = true
           ∧ is_Some (sentryotel.ActiveSentrySpan
                        (sentryotel.Request_Context r'))
           ∧ sentryotel.ActiveSentrySpan (sentryotel.Request_Context r')
               = sentryotel.sentrySpanMap σ
                   !! sentryotel.SpanContext_SpanID otel).
Proof.
  destruct (sentryotel.currentSpanKey (sentryotel.Request_Context r))
    as [otel|] eqn:Hotel.
  - destruct (sentryotel.IsRecording otel) eqn:Hrec.
    + destruct (sentryotel.sentrySpanMap σ
                  !! sentryotel.SpanContext_SpanID otel) as [S|] eqn:Hreg.
      * exists (sentryotel.WithContext r
                  (sentryotel.SpanToContext (sentryotel.Request_Context r) S)).
        split; [intros next; by apply ContinueFromOtel_registered with otel|].
        split; [done|]. split; [done|]. right. exists otel.
        rewrite Hreg. by repeat split; eauto.
      * exists r. split; [|by auto].
        intros next. apply ContinueFromOtel_unchanged.
        intros otel' Heq. rewrite Hotel in Heq. injection Heq as <-. by right.
    + exists r. split; [|by auto].
      intros next. apply ContinueFromOtel_unchanged.
      intros otel' Heq. rewrite Hotel in Heq. injection Heq as <-. by left.
  - exists r. split; [|by auto].
    intros next. apply ContinueFromOtel_unchanged.
    intros otel' Heq. by rewrite Hotel in Heq.
Qed.
